(** * datasets.py: minibatch loading for the Kaggle diabetic-retinopathy data

    A shallow embedding of [Dataset.iterate_minibatches] and of the concrete
    dataset [KaggleDR] ([__init__], [load_image], [prep_image], [load_batch]).

    Conventions of the embedding.
    - The module is Python 2 code ([__metaclass__], [abstractproperty]), so
      [/] between two ints is floor division and [range] builds a list.
    - Python ints are [Z]; an exception is a value of [exn], and every
      operation that can raise returns a [result].
    - numpy arrays are nested lists (outermost axis first); their shape is
      read off the lists and stated by [rect2]/[rect3].
    - The collaborators that live outside the repository (the csv reader, the
      image decoder, skimage's [resize], the dtype cast, numpy's random
      generator) are section variables.
    - The decoder is modelled on files that decode to a 3-axis array, the
      shape [load_image] documents, and [resize] on calls that return: what
      the two raise from within on other inputs (a greyscale file, an array
      without channels) is not modelled, apart from the decoder's own
      exception for a file. *)

From Stdlib Require Import ZArith Lia Ascii String.
From stdpp Require Import base list gmap strings.

Local Open Scope Z_scope.

(** ** Exceptions and results *)

Inductive exn : Set :=
  | NameError | TypeError | ValueError | KeyError | IndexError
  | ZeroDivisionError | AssertionError
  | IOError          (* a file that is absent or cannot be decoded *)
  | ParserError.     (* what the csv reader raises on a malformed table *)

Global Instance exn_eq_dec : EqDecision exn.
Proof. solve_decision. Defined.

Inductive result (A : Type) : Type :=
  | Ok (a : A)
  | Raise (e : exn).
Arguments Ok {A} a.
Arguments Raise {A} e.

Global Instance result_ret : MRet result := λ A, @Ok A.
Global Instance result_bind : MBind result := λ A B f r,
  match r with Ok a => f a | Raise e => Raise e end.
Global Instance result_fmap : FMap result := λ A B f r,
  match r with Ok a => Ok (f a) | Raise e => Raise e end.

Definition is_Ok {A} (r : result A) : Prop := ∃ a, r = Ok a.
Definition raises {A} (r : result A) : Prop := ∃ e, r = Raise e.

(** ** Python sequences *)

Module Py.

(** [a / b] on two Python 2 ints. *)
Definition floordiv (a b : Z) : result Z :=
  if decide (b = 0) then Raise ZeroDivisionError else Ok (a / b).

(** How a slice bound is normalised against a sequence of length [len]:
    a negative bound counts from the end, and the result is clamped. *)
Definition slice_bound (len i : Z) : Z :=
  if decide (i < 0) then Z.max 0 (i + len) else Z.min i len.

(** [l[start:stop]]. *)
Definition slice {A} (l : list A) (start stop : Z) : list A :=
  let len := Z.of_nat (length l) in
  let lo := slice_bound len start in
  let hi := slice_bound len stop in
  take (Z.to_nat (hi - lo)) (drop (Z.to_nat lo) l).

(** How many values [range(start, stop, step)] has, for [step ≠ 0]. *)
Definition range_len (start stop step : Z) : Z :=
  if decide (0 < step)
  then Z.max 0 ((stop - start + step - 1) / step)
  else Z.max 0 ((start - stop - step - 1) / (- step)).

(** [range(start, stop, step)]: a list in Python 2. *)
Definition range (start stop step : Z) : result (list Z) :=
  if decide (step = 0) then Raise ValueError
  else Ok ((λ k : nat, start + Z.of_nat k * step)
             <$> seq 0 (Z.to_nat (range_len start stop step))).

(** [posixpath.join(a, b)]. *)
Definition is_sep (c : Ascii.ascii) : bool :=
  if decide (c = "/"%char) then true else false.

Fixpoint ends_with_sep (s : string) : bool :=
  match s with
  | EmptyString => false
  | String c EmptyString => is_sep c
  | String _ s' => ends_with_sep s'
  end.

Definition starts_with_sep (s : string) : bool :=
  match s with
  | String c _ => is_sep c
  | EmptyString => false
  end.

Definition path_join (a b : string) : string :=
  if starts_with_sep b then b
  else match a with
       | EmptyString => b
       | _ => if ends_with_sep a then a +:+ b else a +:+ "/" +:+ b
       end.

End Py.

(** ** numpy arrays as nested lists *)

Module Np.
Section Arrays.
Context {A : Type}.

(** A 2-axis array has shape [(d0, d1)]; a 3-axis array [(d0, d1, d2)]. *)
Definition rect2 (d0 d1 : nat) (a : list (list A)) : Prop :=
  length a = d0 ∧ Forall (λ r, length r = d1) a.

Definition rect3 (d0 d1 d2 : nat) (a : list (list (list A))) : Prop :=
  length a = d0 ∧ Forall (rect2 d1 d2) a.

(** The entries of [a.shape] for a 3-axis array with [d0, d1 > 0]. *)
Definition dim0 (a : list (list (list A))) : Z := Z.of_nat (length a).
Definition dim1 (a : list (list (list A))) : Z :=
  Z.of_nat (length (hd [] a)).
Definition dim2 (a : list (list (list A))) : nat :=
  length (hd [] (hd [] a)).

(** [a[r0:r1, c0:c1]] on a 3-axis array. *)
Definition slice2 (a : list (list (list A))) (r0 r1 c0 c1 : Z)
  : list (list (list A)) :=
  (λ row : list (list A), Py.slice row c0 c1) <$> Py.slice a r0 r1.

(** The plane [a[:, :, k]]. *)
Definition plane (k : nat) (a : list (list (list A))) : list (list A) :=
  (λ row : list (list A), omap (λ px : list A, px !! k) row) <$> a.

(** [np.transpose(a, (2, 0, 1))]: (rows, cols, channels) to
    (channels, rows, cols). *)
Definition transpose_201 (a : list (list (list A))) : list (list (list A)) :=
  (λ k, plane k a) <$> seq 0 (dim2 a).

(** [a[::-1, :, :]]: the first axis reversed. *)
Definition flip_axis0 (a : list (list (list A))) : list (list (list A)) :=
  reverse a.

(** The element [a[i, j, k]], if the position exists. *)
Definition item (a : list (list (list A))) (i j k : nat) : option A :=
  r ← a !! i; px ← r !! j; px !! k.

(** An element-wise operation on a 3-axis array. *)
Definition map3 (f : A → A) (a : list (list (list A))) : list (list (list A)) :=
  (λ p : list (list A), (λ r : list A, f <$> r) <$> p) <$> a.

End Arrays.
End Np.

(** ** Element types and typed arrays *)

Inductive dtype : Set := uint8 | float32 | float64.

Global Instance dtype_eq_dec : EqDecision dtype.
Proof. solve_decision. Defined.

(** A 3-axis array together with its element type, as [floatX] returns it. *)
Record tensor (A : Type) : Type := Tensor {
  tensor_dtype : dtype;
  tensor_data : list (list (list A))
}.
Arguments Tensor {A} _ _.
Arguments tensor_dtype {A} _.
Arguments tensor_data {A} _.

(** ** Tables, objects and the interpreter state *)

(** One cell of a column that [pd.read_csv] produced: an int, a string, or
    the missing-value marker. *)
Inductive cell : Set := CInt (z : Z) | CStr (s : string) | CNaN.

Global Instance cell_eq_dec : EqDecision cell.
Proof. solve_decision. Defined.

(** What [series[keys]] does with a key that is not a label of the index,
    which differs between pandas releases. *)
Inductive label_lookup : Set :=
  | LabelStrict    (* KeyError as soon as one key is missing *)
  | LabelLenient   (* KeyError if every key is missing, NaN otherwise *)
  | LabelReindex.  (* NaN for each missing key *)

(** The objects a module-level name can be bound to. *)
Inductive pyobj : Set :=
  | PyInt (z : Z)
  | PyModule (name : string)
  | PyClass (name : string)
  | PyFunction (name : string).

(** The names bound at the top level of datasets.py: its imports and its
    two classes. *)
Definition datasets_globals : gmap string pyobj :=
  list_to_map
    [ ("ABCMeta", PyClass "abc.ABCMeta");
      ("abstractmethod", PyFunction "abc.abstractmethod");
      ("abstractproperty", PyClass "abc.abstractproperty");
      ("os", PyModule "os");
      ("np", PyModule "numpy");
      ("pd", PyModule "pandas");
      ("Image", PyModule "PIL.Image");
      ("skimage", PyModule "skimage");
      ("floatX", PyFunction "lasagne.utils.floatX");
      ("Dataset", PyClass "Dataset");
      ("KaggleDR", PyClass "KaggleDR") ]%string.

(** A name that is neither a parameter nor assigned in a function body is
    looked up in the module's globals. *)
Definition load_global (G : gmap string pyobj) (x : string) : result pyobj :=
  match G !! x with
  | Some v => Ok v
  | None => Raise NameError
  end.

(** An operand of integer arithmetic. *)
Definition as_int (v : pyobj) : result Z :=
  match v with
  | PyInt z => Ok z
  | _ => Raise TypeError
  end.

(** The instance attributes [__init__] sets. *)
Record KaggleDR : Set := {
  path_data : string;
  filename_targets : string;
  image_filenames : list cell;
  y : list cell;
  _n_samples : Z
}.

Definition n_samples (self : KaggleDR) : Z := _n_samples self.

(** The mutable objects a caller shares with the generator (index
    sequences, by reference), numpy's global random state, and the globals
    of the module. *)
Record world (rng : Type) : Type := World {
  heap : gmap nat (list Z);
  random_state : rng;
  module_globals : gmap string pyobj
}.
Arguments World {rng} _ _ _.
Arguments heap {rng} _.
Arguments random_state {rng} _.
Arguments module_globals {rng} _.

(** The frame of a generator made by [iterate_minibatches]: not started,
    suspended at the [yield] with the rest of the [range] list still to
    visit, or finished. *)
Inductive generator : Set :=
  | Created (self : KaggleDR) (indices : nat) (batchsize : Z) (shuffle : bool)
  | Suspended (self : KaggleDR) (indices : nat) (batchsize : Z)
              (pending : list Z)
  | Finished.

(** A generator that has started is suspended or finished. *)
Definition started (g : generator) : Prop :=
  match g with
  | Created _ _ _ _ => False
  | _ => True
  end.

(** Two frames that differ at most in the value of the parameter
    [batchsize]. *)
Definition same_frame (g1 g2 : generator) : Prop :=
  match g1, g2 with
  | Created self1 indices1 _ shuffle1, Created self2 indices2 _ shuffle2 =>
      self1 = self2 ∧ indices1 = indices2 ∧ shuffle1 = shuffle2
  | Suspended self1 indices1 _ pending1, Suspended self2 indices2 _ pending2 =>
      self1 = self2 ∧ indices1 = indices2 ∧ pending1 = pending2
  | Finished, Finished => True
  | _, _ => False
  end.

(** What one [next()] on a generator gives. *)
Inductive signal (B : Type) : Type :=
  | Yield (b : B)
  | StopIteration
  | Throw (e : exn).
Arguments Yield {B} b.
Arguments StopIteration {B}.
Arguments Throw {B} e.

(** ** Reference collaborators, for running the pipeline on concrete data *)

(** Nearest-neighbour resampling to [shape.1] rows and [shape.2] columns. *)
Definition nn_resize {A} (im : list (list (list A))) (shape : Z * Z)
    (preserve_range : bool) : list (list (list A)) :=
  let h := length im in
  let w := length (hd [] im) in
  let r := Z.to_nat shape.1 in
  let c := Z.to_nat shape.2 in
  (λ i : nat,
     let row := nth (i * h / r)%nat im (hd [] im) in
     (λ j : nat, nth (j * w / c)%nat row (hd [] row)) <$> seq 0 c)
  <$> seq 0 r.

(** A shuffle that reverses the sequence and counts its calls. *)
Definition rev_shuffle (g : nat) (l : list Z) : nat * list Z :=
  (S g, reverse l).

(** ** The classes [Dataset] and [KaggleDR] *)

Section Datasets.
Context {A : Type} {rng : Type}.

(** [skimage.transform.resize(im, output_shape, preserve_range=...)]. *)
Variable resize : list (list (list A)) → Z * Z → bool → list (list (list A)).
(** The conversion of one element to a dtype, as [np.asarray(_, dtype)]
    does it. *)
Variable astype : dtype → A → A.
(** [theano.config.floatX], the dtype [lasagne.utils.floatX] casts to. *)
Variable floatX_dtype : dtype.
(** [pd.read_csv(path)]: the columns of the table by name, or the error. *)
Variable read_csv : string → result (gmap string (list cell)).
(** [np.array(Image.open(path))]. *)
Variable image_open : string → result (list (list (list A))).
(** The installed pandas' treatment of missing labels. *)
Variable pandas_lookup : label_lookup.
(** [np.random.shuffle] on the global random state: the next state and the
    new content of the sequence. *)
Variable shuffle_with : rng → list Z → rng * list Z.

(** *** KaggleDR.__init__ *)

(** [labels[name]] on a DataFrame. *)
Definition column (labels : gmap string (list cell)) (name : string)
  : result (list cell) :=
  match labels !! name with
  | Some c => Ok c
  | None => Raise KeyError
  end.

Definition __init__ (path_data filename_targets : string) : result KaggleDR :=
  labels ← read_csv filename_targets;
  image_filenames ← column labels "image";
  level ← column labels "level";
  let y := level in
  mret {| path_data := path_data;
          filename_targets := filename_targets;
          image_filenames := image_filenames;
          y := y;
          _n_samples := Z.of_nat (length y) |}.

(** *** KaggleDR.load_image *)

(** [filename + '.jpeg']: defined on a string only. *)
Definition add_str (filename : cell) (suffix : string) : result string :=
  match filename with
  | CStr s => Ok (s +:+ suffix)
  | _ => Raise TypeError
  end.

Definition image_path (self : KaggleDR) (filename : cell) : result string :=
  name ← add_str filename ".jpeg";
  mret (Py.path_join (path_data self) name).

Definition load_image (self : KaggleDR) (filename : cell)
  : result (list (list (list A))) :=
  filename ← image_path self filename;
  image_open filename.

(** *** KaggleDR.prep_image *)

Definition floatX (a : list (list (list A))) : tensor A :=
  Tensor floatX_dtype (Np.map3 (astype floatX_dtype) a).

(** The [output_shape] handed to [resize] (lines 128-133): the first
    component is the number of rows. *)
Definition resize_shape (h w : Z) : result (Z * Z) :=
  if decide (h < w)
  then c ← Py.floordiv (w * 256) h; mret (256, c)
  else r ← Py.floordiv (h * 256) w; mret (r, 256).

(** Lines 127-133. *)
Definition prep_resize (im : list (list (list A)))
  : result (list (list (list A))) :=
  let h := Np.dim0 im in
  let w := Np.dim1 im in
  shape ← resize_shape h w;
  mret (resize im shape true).

(** Lines 135-136. *)
Definition prep_crop (im : list (list (list A))) : list (list (list A)) :=
  let h := Np.dim0 im in
  let w := Np.dim1 im in
  Np.slice2 im (h / 2 - 112) (h / 2 + 112) (w / 2 - 112) (w / 2 + 112).

Definition prep_image (im : list (list (list A))) : result (tensor A) :=
  im ← prep_resize im;
  let im := prep_crop im in
  let im := Np.transpose_201 im in
  let im := Np.flip_axis0 im in
  mret (floatX im).

(** *** KaggleDR.load_batch *)

(** The label [i] of a default (0, 1, 2, ...) index, if it is one. *)
Definition at_label (s : list cell) (i : Z) : option cell :=
  if decide (0 ≤ i) then s !! Z.to_nat i else None.

(** [series[indices]] for a Series with the default index: the keys are
    labels, not positions, so a negative key is a missing one. *)
Definition series_getitem (s : list cell) (indices : list Z)
  : result (list cell) :=
  let found := at_label s <$> indices in
  let fill := default CNaN <$> found in
  match pandas_lookup with
  | LabelStrict =>
      if decide (Forall is_Some found) then Ok fill else Raise KeyError
  | LabelLenient =>
      if decide (indices ≠ [] ∧ Forall (λ o, o = None) found)
      then Raise KeyError else Ok fill
  | LabelReindex => Ok fill
  end.

(** One position of [array[indices]]: numpy counts a negative position
    from the end and raises [IndexError] outside [-n, n). *)
Definition ndarray_item (a : list cell) (i : Z) : result cell :=
  let n := Z.of_nat (length a) in
  if decide (- n ≤ i < n)
  then match a !! Z.to_nat (if decide (i < 0) then i + n else i) with
       | Some c => Ok c
       | None => Raise IndexError
       end
  else Raise IndexError.

Definition ndarray_getitem (a : list cell) (indices : list Z)
  : result (list cell) :=
  mapM (ndarray_item a) indices.

(** [np.array] of the list of preprocessed tensors: the batch, one tensor
    per position of its first axis. *)
Definition np_array (ts : list (tensor A)) : list (tensor A) := ts.

Definition load_batch (self : KaggleDR) (indices : list Z)
  : result (list (tensor A) * list cell) :=
  fns ← series_getitem (image_filenames self) indices;
  X ← np_array <$> mapM (λ fn, im ← load_image self fn; prep_image im) fns;
  y ← ndarray_getitem (y self) indices;
  if decide (length X = length y ∧ length y = length indices)
  then mret (X, y)
  else Raise AssertionError.

(** *** Dataset.iterate_minibatches *)

(** The sequence object behind a reference. *)
Definition deref (w : world rng) (l : nat) : list Z :=
  default [] (heap w !! l).

(** [np.random.shuffle(indices)]: the object is overwritten in place. *)
Definition np_random_shuffle (w : world rng) (indices : nat) : world rng :=
  let '(g, l) := shuffle_with (random_state w) (deref w indices) in
  World (<[indices := l]> (heap w)) g (module_globals w).

(** The world in which the body of a fresh generator runs: lines 61-62. *)
Definition entry_world (w : world rng) (indices : nat) (shuffle : bool)
  : world rng :=
  if shuffle then np_random_shuffle w indices else w.

(** The name [batch_size] in the body: the function's parameter is called
    [batchsize], so this is a global of the module. *)
Definition load_batch_size (w : world rng) : result Z :=
  v ← load_global (module_globals w) "batch_size";
  as_int v.

(** The excerpts the loop of lines 63-64 takes from a sequence when the
    name [batch_size] evaluates to [b]. *)
Definition excerpts (indices : list Z) (b : Z) : result (list (list Z)) :=
  (λ starts : list Z,
     (λ start_idx : Z, Py.slice indices start_idx (start_idx + b)) <$> starts)
  <$> Py.range 0 (Z.of_nat (length indices) - b + 1) b.

(** The body of the [for] loop from its head: take the next [start_idx],
    slice, load, and suspend at the [yield]. *)
Definition loop_step (w : world rng) (self : KaggleDR) (indices : nat)
    (batchsize : Z) (pending : list Z)
  : world rng * generator * signal (list (tensor A) * list cell) :=
  match pending with
  | [] => (w, Finished, StopIteration)
  | start_idx :: pending' =>
      match (batch_size ← load_batch_size w;
             let excerpt :=
               Py.slice (deref w indices) start_idx (start_idx + batch_size) in
             load_batch self excerpt) with
      | Ok b => (w, Suspended self indices batchsize pending', Yield b)
      | Raise e => (w, Finished, Throw e)
      end
  end.

(** Calling the generator function runs none of its body. *)
Definition iterate_minibatches (self : KaggleDR) (indices : nat)
    (batchsize : Z) (shuffle : bool) : generator :=
  Created self indices batchsize shuffle.

(** One [next()]. *)
Definition next (w : world rng) (g : generator)
  : world rng * generator * signal (list (tensor A) * list cell) :=
  match g with
  | Created self indices batchsize shuffle =>
      let w := entry_world w indices shuffle in
      match (b1 ← load_batch_size w;
             b2 ← load_batch_size w;
             Py.range 0 (Z.of_nat (length (deref w indices)) - b1 + 1) b2) with
      | Ok starts => loop_step w self indices batchsize starts
      | Raise e => (w, Finished, Throw e)
      end
  | Suspended self indices batchsize pending =>
      loop_step w self indices batchsize pending
  | Finished => (w, Finished, StopIteration)
  end.

(** How a consumer's loop over a generator ended. *)
Inductive ending : Set :=
  | Exhausted            (* StopIteration: the loop ends normally *)
  | Failed (e : exn)     (* the exception reaches the consumer *)
  | Running.             (* the consumer stopped asking *)

(** A consumer that calls [next()] at most [fuel] times, as
    [for X, y in gen] does: the batches it received and how it ended. *)
Fixpoint consume (fuel : nat) (w : world rng) (g : generator)
  : world rng * list (list (tensor A) * list cell) * ending :=
  match fuel with
  | O => (w, [], Running)
  | S fuel' =>
      match next w g with
      | (w', g', Yield b) =>
          let '(w'', bs, e) := consume fuel' w' g' in (w'', b :: bs, e)
      | (w', _, StopIteration) => (w', [], Exhausted)
      | (w', _, Throw e) => (w', [], Failed e)
      end
  end.

(** *** Properties of the dataset object *)

(** The two columns of the object have one entry per sample. *)
Definition consistent (self : KaggleDR) : Prop :=
  Z.of_nat (length (image_filenames self)) = n_samples self
  ∧ Z.of_nat (length (y self)) = n_samples self.

(** Sample [i] has a file name whose image file decodes to a raster with
    at least one row and one column. *)
Definition decodable (self : KaggleDR) (i : Z) : Prop :=
  ∃ fn im, at_label (image_filenames self) i = Some fn
           ∧ load_image self fn = Ok im
           ∧ 0 < Np.dim0 im ∧ 0 < Np.dim1 im.

End Datasets.

(** ** The configuration surface, as the specification describes it *)

(** A choice of the four settings. *)
Record settings : Set := {
  crop_size : Z;
  short_side : Z;
  float_dtype : dtype;
  extension : string
}.

(** The new size the specification gives for the resize step: the short
    side becomes 256 and the long side is scaled by the same factor. *)
Definition target_shape (h w : Z) : Z * Z :=
  if decide (h < w) then (256, w * 256 / h) else (h * 256 / w, 256).

(** The pipeline follows the choice [s]: image files are resolved with the
    chosen extension, the resize makes the short side the chosen length, and
    a 3-channel raster becomes a tensor of the chosen dtype and crop size. *)
Definition honours_settings {A : Type}
    (resize : list (list (list A)) → Z * Z → bool → list (list (list A)))
    (astype : dtype → A → A) (s : settings) : Prop :=
  (∀ (self : KaggleDR) (fn : string),
     image_path self (CStr fn)
     = Ok (Py.path_join (path_data self) (fn +:+ extension s)))
  ∧ (∀ h w : Z, 0 < h → 0 < w →
       ∃ r c, resize_shape h w = Ok (r, c) ∧ Z.min r c = short_side s)
  ∧ (∀ (im : list (list (list A))) (h w : nat),
       Np.rect3 h w 3 im → (0 < h)%nat → (0 < w)%nat →
       ∃ t, prep_image resize astype (float_dtype s) im = Ok t
            ∧ tensor_dtype t = float_dtype s
            ∧ Np.rect3 3 (Z.to_nat (crop_size s)) (Z.to_nat (crop_size s))
                (tensor_data t)).

(** Every row of a label table is a (file name, integer label) pair. *)
Definition is_filename (c : cell) : Prop := ∃ s, c = CStr s.
Definition is_int_label (c : cell) : Prop := ∃ z, c = CInt z.

Definition parsed_rows (table : gmap string (list cell)) : Prop :=
  ∃ fns labels,
    table !! "image"%string = Some fns
    ∧ table !! "level"%string = Some labels
    ∧ length fns = length labels
    ∧ Forall is_filename fns
    ∧ Forall is_int_label labels.

(** ** Sample data *)

(** A table with the two columns and two rows. *)
Definition sample_labels : gmap string (list cell) :=
  list_to_map [ ("image", [CStr "img1"; CStr "img2"]);
                ("level", [CInt 0; CInt 2]) ]%string.

(** A table whose second label is not an integer. *)
Definition textual_labels : gmap string (list cell) :=
  list_to_map [ ("image", [CStr "img1"; CStr "img2"]);
                ("level", [CInt 0; CStr "severe"]) ]%string.

(** A file system with one label file. *)
Definition csv_of (path : string) (table : gmap string (list cell))
  : string → result (gmap string (list cell)) :=
  λ p, if decide (p = path) then Ok table else Raise IOError.

(** A 1 x 2 raster with 3 channels. *)
Definition tiny_image : list (list (list Z)) := [[[1; 2; 3]; [4; 5; 6]]].

(** A decoder that finds the two sample images under [data/]. *)
Definition sample_open (p : string) : result (list (list (list Z))) :=
  if decide (p = "data/img1.jpeg"%string) then Ok tiny_image
  else if decide (p = "data/img2.jpeg"%string) then Ok tiny_image
  else Raise IOError.

(** The object [KaggleDR('data', 'labels.csv')] over [sample_labels]. *)
Definition sample_dataset : KaggleDR :=
  {| path_data := "data";
     filename_targets := "labels.csv";
     image_filenames := [CStr "img1"; CStr "img2"];
     y := [CInt 0; CInt 2];
     _n_samples := 2 |}.

(** A 1 x 1 raster with 4 channels. *)
Definition rgba_image : list (list (list Z)) := [[[10; 20; 30; 40]]].

(** A dataset whose second image file does not exist for [sample_open]. *)
Definition lossy_dataset : KaggleDR :=
  {| path_data := "data";
     filename_targets := "labels.csv";
     image_filenames := [CStr "img1"; CStr "lost"; CStr "img2"];
     y := [CInt 0; CInt 1; CInt 2];
     _n_samples := 3 |}.

(** * Properties *)

(** ** Slices and ranges *)

Lemma slice_in_range {A} (l : list A) (lo hi : Z) :
  0 ≤ lo → lo ≤ hi → hi ≤ Z.of_nat (length l) →
  Py.slice l lo hi = take (Z.to_nat (hi - lo)) (drop (Z.to_nat lo) l).
Proof.
  intros Hlo Hle Hhi. unfold Py.slice, Py.slice_bound.
  repeat case_decide; try lia.
  by rewrite !Z.min_l by lia.
Qed.

Lemma length_slice_in_range {A} (l : list A) (lo hi : Z) :
  0 ≤ lo → lo ≤ hi → hi ≤ Z.of_nat (length l) →
  length (Py.slice l lo hi) = Z.to_nat (hi - lo).
Proof.
  intros. rewrite slice_in_range by done.
  rewrite length_take, length_drop. lia.
Qed.

Lemma lookup_slice_in_range {A} (l : list A) (lo hi : Z) (i : nat) :
  0 ≤ lo → lo ≤ hi → hi ≤ Z.of_nat (length l) →
  (i < Z.to_nat (hi - lo))%nat →
  Py.slice l lo hi !! i = l !! (Z.to_nat lo + i)%nat.
Proof.
  intros. rewrite slice_in_range by done.
  by rewrite lookup_take_lt, lookup_drop.
Qed.

(** A slice never invents elements. *)
Lemma slice_sublist {A} (l : list A) (lo hi : Z) (x : A) :
  x ∈ Py.slice l lo hi → x ∈ l.
Proof.
  unfold Py.slice. intros Hx.
  apply elem_of_take in Hx as (i & Hx & _).
  rewrite lookup_drop in Hx.
  by eapply list_elem_of_lookup_2.
Qed.

(** The start indices of the loop of [iterate_minibatches], had the name in
    its head been bound to [b]: one per full window of a sequence of
    length [n]. *)
Lemma range_full_windows (n b : Z) :
  0 < b →
  Py.range 0 (n - b + 1) b
  = Ok ((λ k : nat, Z.of_nat k * b) <$> seq 0 (Z.to_nat (n / b))).
Proof.
  intros Hb. unfold Py.range, Py.range_len.
  repeat case_decide; try lia.
  replace (n - b + 1 - 0 + b - 1) with n by lia.
  f_equal. replace (Z.to_nat (Z.max 0 (n / b))) with (Z.to_nat (n / b)) by lia.
  apply list_fmap_ext. intros; lia.
Qed.

(** ** Shapes *)

Section Shapes.
Context {A : Type}.
Implicit Types (a : list (list (list A))) (p : list (list A)).

Lemma rect3_dim0 a d0 d1 d2 :
  Np.rect3 d0 d1 d2 a → Np.dim0 a = Z.of_nat d0.
Proof. intros [<- _]. done. Qed.

Lemma rect3_row a d0 d1 d2 i p :
  Np.rect3 d0 d1 d2 a → a !! i = Some p → Np.rect2 d1 d2 p.
Proof. intros [_ Ha] Hi. by eapply Forall_lookup_1 in Ha. Qed.

Lemma rect3_dim1 a d0 d1 d2 :
  Np.rect3 d0 d1 d2 a → (0 < d0)%nat → Np.dim1 a = Z.of_nat d1.
Proof.
  intros Ha Hpos. unfold Np.dim1.
  destruct a as [|p a]; [destruct Ha; simpl in *; lia|]. simpl.
  by destruct (rect3_row _ _ _ _ 0%nat p Ha eq_refl) as [-> _].
Qed.

Lemma rect3_dim2 a d0 d1 d2 :
  Np.rect3 d0 d1 d2 a → (0 < d0)%nat → (0 < d1)%nat → Np.dim2 a = d2.
Proof.
  intros Ha Hpos0 Hpos1. unfold Np.dim2.
  destruct a as [|p a]; [destruct Ha; simpl in *; lia|].
  destruct (rect3_row _ _ _ _ 0%nat p Ha eq_refl) as [Hlen Hp].
  destruct p as [|px p]; [simpl in *; lia|]. simpl.
  by apply Forall_cons in Hp as [-> _].
Qed.

Lemma slice2_rect a d0 d1 d2 r0 r1 c0 c1 :
  Np.rect3 d0 d1 d2 a →
  0 ≤ r0 → r0 ≤ r1 → r1 ≤ Z.of_nat d0 →
  0 ≤ c0 → c0 ≤ c1 → c1 ≤ Z.of_nat d1 →
  Np.rect3 (Z.to_nat (r1 - r0)) (Z.to_nat (c1 - c0)) d2
    (Np.slice2 a r0 r1 c0 c1).
Proof.
  intros [Hlen Ha] ? ? ? ? ? ?. unfold Np.slice2. split.
  - rewrite length_fmap, length_slice_in_range; [done..|lia].
  - apply Forall_fmap, Forall_forall. intros p Hp.
    apply slice_sublist in Hp.
    rewrite Forall_forall in Ha. destruct (Ha p Hp) as [Hp0 Hp1].
    split; simpl.
    + rewrite length_slice_in_range; [done..|lia].
    + apply Forall_forall. intros px Hpx. apply slice_sublist in Hpx.
      rewrite Forall_forall in Hp1. by apply Hp1.
Qed.

Lemma slice2_item a d0 d1 d2 r0 r1 c0 c1 i j k :
  Np.rect3 d0 d1 d2 a →
  0 ≤ r0 → r0 ≤ r1 → r1 ≤ Z.of_nat d0 →
  0 ≤ c0 → c0 ≤ c1 → c1 ≤ Z.of_nat d1 →
  (i < Z.to_nat (r1 - r0))%nat → (j < Z.to_nat (c1 - c0))%nat →
  Np.item (Np.slice2 a r0 r1 c0 c1) i j k
  = Np.item a (Z.to_nat r0 + i) (Z.to_nat c0 + j) k.
Proof.
  intros Ha ? ? ? ? ? ? Hi Hj. unfold Np.item, Np.slice2.
  rewrite list_lookup_fmap.
  rewrite lookup_slice_in_range; [|done|done|destruct Ha; lia|done].
  destruct (a !! (Z.to_nat r0 + i)%nat) as [p|] eqn:Hp; [|done]. simpl.
  destruct (rect3_row _ _ _ _ _ _ Ha Hp) as [Hlen _].
  rewrite lookup_slice_in_range; [done..|lia|done].
Qed.

(** Picking channel [k] of every pixel of a row. *)
Lemma omap_channel (row : list (list A)) (d2 k : nat) :
  Forall (λ px, length px = d2) row → (k < d2)%nat →
  length (omap (λ px : list A, px !! k) row) = length row
  ∧ ∀ j, omap (λ px : list A, px !! k) row !! j = row !! j ≫= (.!! k).
Proof.
  intros Hrow Hk. induction Hrow as [|px row Hpx _ [IHlen IH]]; [done|].
  destruct (lookup_lt_is_Some_2 px k) as [x Hx]; [lia|].
  simpl. rewrite Hx. simpl. split; [by f_equal|].
  intros [|j]; simpl; [done|apply IH].
Qed.

Lemma plane_rect a d0 d1 d2 k :
  Np.rect3 d0 d1 d2 a → (k < d2)%nat → Np.rect2 d0 d1 (Np.plane k a).
Proof.
  intros [Hlen Ha] Hk. unfold Np.plane. split.
  - by rewrite length_fmap.
  - apply Forall_fmap. eapply Forall_impl; [exact Ha|].
    intros p [Hp0 Hp1]. simpl.
    by destruct (omap_channel p d2 k Hp1 Hk) as [-> _].
Qed.

Lemma transpose_201_rect a d0 d1 d2 :
  Np.rect3 d0 d1 d2 a → (0 < d0)%nat → (0 < d1)%nat →
  Np.rect3 d2 d0 d1 (Np.transpose_201 a).
Proof.
  intros Ha H0 H1. unfold Np.transpose_201.
  rewrite (rect3_dim2 _ _ _ _ Ha H0 H1). split.
  - by rewrite length_fmap, length_seq.
  - apply Forall_fmap, Forall_forall. intros k Hk.
    apply elem_of_seq in Hk. simpl. eapply plane_rect; [done|lia].
Qed.

Lemma transpose_201_item a d0 d1 d2 k i j :
  Np.rect3 d0 d1 d2 a → (0 < d0)%nat → (0 < d1)%nat → (k < d2)%nat →
  Np.item (Np.transpose_201 a) k i j = Np.item a i j k.
Proof.
  intros Ha H0 H1 Hk. unfold Np.item, Np.transpose_201.
  rewrite (rect3_dim2 _ _ _ _ Ha H0 H1).
  rewrite list_lookup_fmap, lookup_seq_lt by done. simpl.
  unfold Np.plane. rewrite list_lookup_fmap.
  destruct (a !! i) as [p|] eqn:Hp; [|done]. simpl.
  destruct (rect3_row _ _ _ _ _ _ Ha Hp) as [_ Hp1].
  by destruct (omap_channel p d2 k Hp1 Hk) as [_ ->].
Qed.

Lemma flip_axis0_rect a d0 d1 d2 :
  Np.rect3 d0 d1 d2 a → Np.rect3 d0 d1 d2 (Np.flip_axis0 a).
Proof.
  intros [Hlen Ha]. unfold Np.flip_axis0. split.
  - by rewrite length_reverse.
  - by apply Forall_reverse.
Qed.

Lemma flip_axis0_item a d0 d1 d2 k i j :
  Np.rect3 d0 d1 d2 a → (k < d0)%nat →
  Np.item (Np.flip_axis0 a) k i j = Np.item a (d0 - 1 - k) i j.
Proof.
  intros [Hlen _] Hk. unfold Np.item, Np.flip_axis0.
  rewrite reverse_lookup by lia.
  by replace (length a - S k)%nat with (d0 - 1 - k)%nat by lia.
Qed.

Lemma map3_rect (f : A → A) a d0 d1 d2 :
  Np.rect3 d0 d1 d2 a → Np.rect3 d0 d1 d2 (Np.map3 f a).
Proof.
  intros [Hlen Ha]. unfold Np.map3. split.
  - by rewrite length_fmap.
  - apply Forall_fmap. eapply Forall_impl; [exact Ha|].
    intros p [Hp0 Hp1]. split; simpl.
    + by rewrite length_fmap.
    + apply Forall_fmap. eapply Forall_impl; [exact Hp1|].
      intros px Hpx. simpl. by rewrite length_fmap.
Qed.

Lemma map3_item (f : A → A) a i j k :
  Np.item (Np.map3 f a) i j k = f <$> Np.item a i j k.
Proof.
  unfold Np.item, Np.map3. rewrite list_lookup_fmap.
  destruct (a !! i) as [p|]; [|done]. simpl.
  rewrite list_lookup_fmap. destruct (p !! j) as [px|]; [|done]. simpl.
  by rewrite list_lookup_fmap.
Qed.

End Shapes.

(** ** Preprocessing *)

Section Preprocessing.
Context {A : Type}.
Variable resize : list (list (list A)) → Z * Z → bool → list (list (list A)).
Variable astype : dtype → A → A.

(** What skimage documents for [resize]: the output has the requested
    numbers of rows and columns and keeps the channel axis. *)
Hypothesis resize_rect : ∀ im shape preserve_range (d0 d1 d2 : nat),
  Np.rect3 d0 d1 d2 im → (0 < d0)%nat → (0 < d1)%nat →
  0 < shape.1 → 0 < shape.2 →
  Np.rect3 (Z.to_nat shape.1) (Z.to_nat shape.2) d2
    (resize im shape preserve_range).

Lemma resize_shape_target (h w : Z) :
  0 < h → 0 < w → resize_shape h w = Ok (target_shape h w).
Proof.
  intros Hh Hw. unfold resize_shape, target_shape, Py.floordiv.
  repeat case_decide; try lia; done.
Qed.

Lemma target_shape_short_side (h w : Z) :
  0 < h → 0 < w →
  Z.min (target_shape h w).1 (target_shape h w).2 = 256.
Proof.
  intros Hh Hw. unfold target_shape. case_decide; simpl.
  - assert (256 ≤ w * 256 / h); [|lia].
    apply Z.div_le_lower_bound; lia.
  - assert (256 ≤ h * 256 / w); [|lia].
    apply Z.div_le_lower_bound; lia.
Qed.

Lemma target_shape_aspect (h w : Z) :
  0 < h → 0 < w →
  let '(r, c) := target_shape h w in
  if decide (h < w)
  then r = 256 ∧ c * h ≤ w * 256 < (c + 1) * h
  else c = 256 ∧ r * w ≤ h * 256 < (r + 1) * w.
Proof.
  intros Hh Hw. unfold target_shape. case_decide.
  - split; [done|].
    pose proof (Z.mul_div_le (w * 256) h Hh).
    pose proof (Z.mul_succ_div_gt (w * 256) h Hh). lia.
  - split; [done|].
    pose proof (Z.mul_div_le (h * 256) w Hw).
    pose proof (Z.mul_succ_div_gt (h * 256) w Hw). lia.
Qed.

Lemma prep_resize_spec (im : list (list (list A))) (h w d : nat) :
  Np.rect3 h w d im → (0 < h)%nat → (0 < w)%nat →
  let shape := target_shape (Z.of_nat h) (Z.of_nat w) in
  prep_resize resize im = Ok (resize im shape true)
  ∧ Np.rect3 (Z.to_nat shape.1) (Z.to_nat shape.2) d (resize im shape true)
  ∧ Z.min shape.1 shape.2 = 256.
Proof.
  intros Him Hh Hw shape. unfold prep_resize.
  rewrite (rect3_dim0 _ _ _ _ Him), (rect3_dim1 _ _ _ _ Him Hh).
  rewrite resize_shape_target by lia.
  pose proof (target_shape_short_side (Z.of_nat h) (Z.of_nat w)) as Hmin.
  fold shape in Hmin. split; [done|]. split; [|apply Hmin; lia].
  apply resize_rect with h w; try done; lia.
Qed.

Lemma prep_crop_spec (im : list (list (list A))) (r c : Z) (d : nat) :
  Np.rect3 (Z.to_nat r) (Z.to_nat c) d im → 224 ≤ r → 224 ≤ c →
  Np.rect3 224 224 d (prep_crop im)
  ∧ ∀ i j k, (i < 224)%nat → (j < 224)%nat →
      Np.item (prep_crop im) i j k
      = Np.item im (Z.to_nat (r / 2 - 112) + i) (Z.to_nat (c / 2 - 112) + j) k.
Proof.
  intros Him Hr Hc. unfold prep_crop.
  rewrite (rect3_dim0 _ _ _ _ Him), (rect3_dim1 _ _ _ _ Him) by lia.
  rewrite !Z2Nat.id by lia.
  assert (112 ≤ r / 2) by (apply Z.div_le_lower_bound; lia).
  assert (112 ≤ c / 2) by (apply Z.div_le_lower_bound; lia).
  assert (2 * (r / 2) ≤ r) by (apply Z.mul_div_le; lia).
  assert (2 * (c / 2) ≤ c) by (apply Z.mul_div_le; lia).
  split.
  - replace 224%nat with (Z.to_nat (r / 2 + 112 - (r / 2 - 112))) at 1 by lia.
    replace 224%nat with (Z.to_nat (c / 2 + 112 - (c / 2 - 112))) by lia.
    eapply slice2_rect; [exact Him|lia..].
  - intros i j k Hi Hj.
    eapply slice2_item; [exact Him|lia..].
Qed.

Lemma prep_image_spec (floatX_dtype : dtype)
    (im : list (list (list A))) (h w d : nat) :
  Np.rect3 h w d im → (0 < h)%nat → (0 < w)%nat →
  let shape := target_shape (Z.of_nat h) (Z.of_nat w) in
  let resized := resize im shape true in
  ∃ t, prep_image resize astype floatX_dtype im = Ok t
       ∧ tensor_dtype t = floatX_dtype
       ∧ Np.rect3 d 224 224 (tensor_data t)
       ∧ ∀ k i j, (k < d)%nat → (i < 224)%nat → (j < 224)%nat →
           Np.item (tensor_data t) k i j
           = astype floatX_dtype
             <$> Np.item resized (Z.to_nat (shape.1 / 2 - 112) + i)
                   (Z.to_nat (shape.2 / 2 - 112) + j) (d - 1 - k).
Proof.
  intros Him Hh Hw shape resized.
  destruct (prep_resize_spec im h w d Him Hh Hw) as (Hrs & Hrect & Hmin).
  fold shape in Hrs, Hrect, Hmin. fold resized in Hrs, Hrect.
  destruct (prep_crop_spec resized shape.1 shape.2 d Hrect) as [Hcrop Hitem];
    [lia..|].
  pose proof (transpose_201_rect _ _ _ _ Hcrop) as Htr.
  unfold prep_image. rewrite Hrs. simpl.
  eexists. split; [done|]. split; [done|]. simpl. split.
  - apply map3_rect, flip_axis0_rect, Htr; lia.
  - intros k i j Hk Hi Hj.
    rewrite map3_item. f_equal.
    rewrite (flip_axis0_item _ d 224 224) by (try apply Htr; lia).
    rewrite (transpose_201_item _ 224 224 d) by (done || lia).
    by apply Hitem.
Qed.

(** C4. An image of [h] rows, [w] columns and 3 channels is resized, with
    [preserve_range=True], to [(256, w*256/h)] if [h < w] and to
    [(h*256/w, 256)] otherwise: the short side becomes exactly 256, the long
    side is the floor of the same scaling, and there is no guard, so an image
    whose short side is below 256 is scaled up by the same formula. *)
Theorem prep_resize_short_side_256 (im : list (list (list A))) (h w : nat) :
  Np.rect3 h w 3 im → (0 < h)%nat → (0 < w)%nat →
  ∃ r c : Z,
    (r, c) = (if decide (Z.of_nat h < Z.of_nat w)
              then (256, Z.of_nat w * 256 / Z.of_nat h)
              else (Z.of_nat h * 256 / Z.of_nat w, 256))
    ∧ prep_resize resize im = Ok (resize im (r, c) true)
    ∧ Np.rect3 (Z.to_nat r) (Z.to_nat c) 3 (resize im (r, c) true)
    ∧ Z.min r c = 256
    ∧ (if decide (Z.of_nat h < Z.of_nat w)
       then c * Z.of_nat h ≤ Z.of_nat w * 256 < (c + 1) * Z.of_nat h
       else r * Z.of_nat w ≤ Z.of_nat h * 256 < (r + 1) * Z.of_nat w)
    ∧ (Z.min (Z.of_nat h) (Z.of_nat w) < 256 →
       Z.of_nat h ≤ r ∧ Z.of_nat w ≤ c).
Proof.
  intros Him Hh Hw.
  destruct (prep_resize_spec im h w 3 Him Hh Hw) as (Hrs & Hrect & Hmin).
  pose proof (target_shape_aspect (Z.of_nat h) (Z.of_nat w)) as Hasp.
  destruct (target_shape (Z.of_nat h) (Z.of_nat w)) as [r c] eqn:Hshape.
  exists r, c. simpl in *.
  assert ((r, c) = (if decide (Z.of_nat h < Z.of_nat w)
                    then (256, Z.of_nat w * 256 / Z.of_nat h)
                    else (Z.of_nat h * 256 / Z.of_nat w, 256))) as Heq.
  { rewrite <- Hshape. unfold target_shape. by case_decide. }
  specialize (Hasp ltac:(lia) ltac:(lia)).
  destruct (decide (Z.of_nat h < Z.of_nat w)) as [Hlt|Hge];
    destruct Hasp as [Hfix Hasp]; repeat split;
    try done; try apply Hrect; try lia.
  - destruct (decide (Z.of_nat w ≤ c)) as [|Hn]; [done|exfalso].
    assert ((c + 1) * Z.of_nat h ≤ Z.of_nat w * Z.of_nat h)
      by (apply Z.mul_le_mono_nonneg_r; lia).
    assert (Z.of_nat w * Z.of_nat h ≤ Z.of_nat w * 256)
      by (apply Z.mul_le_mono_nonneg_l; lia).
    lia.
  - destruct (decide (Z.of_nat h ≤ r)) as [|Hn]; [done|exfalso].
    assert ((r + 1) * Z.of_nat w ≤ Z.of_nat h * Z.of_nat w)
      by (apply Z.mul_le_mono_nonneg_r; lia).
    assert (Z.of_nat h * Z.of_nat w ≤ Z.of_nat h * 256)
      by (apply Z.mul_le_mono_nonneg_l; lia).
    lia.
Qed.

(** C3. A 3-channel raster becomes a tensor of shape (3, 224, 224) whose
    dtype is the configured [floatX]; its element [(k, i, j)] is the cast of
    channel [2 - k] of the resized image at row [r/2 - 112 + i] and column
    [c/2 - 112 + j], where [(r, c)] is the size after the resize: the crop
    runs from [centre - 112] to [centre + 112] with the centre rounded
    down. *)
Theorem prep_image_center_crop (floatX_dtype : dtype)
    (im : list (list (list A))) (h w : nat) :
  Np.rect3 h w 3 im → (0 < h)%nat → (0 < w)%nat →
  ∃ (r c : Z) (resized : list (list (list A))) (t : tensor A),
    prep_resize resize im = Ok resized
    ∧ Np.rect3 (Z.to_nat r) (Z.to_nat c) 3 resized
    ∧ prep_image resize astype floatX_dtype im = Ok t
    ∧ tensor_dtype t = floatX_dtype
    ∧ Np.rect3 3 224 224 (tensor_data t)
    ∧ ∀ k i j, (k < 3)%nat → (i < 224)%nat → (j < 224)%nat →
        Np.item (tensor_data t) k i j
        = astype floatX_dtype
          <$> Np.item resized (Z.to_nat (r / 2 - 112) + i)
                (Z.to_nat (c / 2 - 112) + j) (2 - k).
Proof.
  intros Him Hh Hw.
  destruct (prep_resize_spec im h w 3 Him Hh Hw) as (Hrs & Hrect & _).
  destruct (prep_image_spec floatX_dtype im h w 3 Him Hh Hw)
    as (t & Ht & Hdt & Hsh & Hit).
  set (shape := target_shape (Z.of_nat h) (Z.of_nat w)) in *.
  exists shape.1, shape.2, (resize im shape true), t.
  split; [done|]. split; [exact Hrect|]. split; [done|]. split; [done|].
  split; [exact Hsh|exact Hit].
Qed.

(** C9, as the code has it. Of the four settings only the dtype is free
    (it is the library-wide [floatX]): the pipeline follows a choice of
    settings exactly when the crop size is 224, the short side 256 and the
    extension [.jpeg], which are literals of [prep_image] and
    [load_image]. *)
Theorem only_dtype_is_configurable (a0 : A) (s : settings) :
  honours_settings resize astype s
  ↔ crop_size s = 224 ∧ short_side s = 256 ∧ extension s = ".jpeg"%string.
Proof.
  split.
  - intros (Hext & Hside & Hcrop). repeat split.
    + destruct (Hcrop [[[a0; a0; a0]]] 1%nat 1%nat) as (t & Ht & _ & Hsh);
        [repeat constructor|lia|lia|].
      destruct (prep_image_spec (float_dtype s) [[[a0; a0; a0]]] 1 1 3)
        as (t' & Ht' & _ & Hsh' & _); [repeat constructor|lia|lia|].
      rewrite Ht in Ht'. injection Ht' as <-.
      destruct Hsh as [_ Hsh], Hsh' as [Hlen Hsh'].
      destruct (tensor_data t) as [|p ?]; [done|].
      apply Forall_cons in Hsh as [[Hp _] _], Hsh' as [[Hp' _] _]. lia.
    + destruct (Hside 1 1) as (r & c & Hrc & Hmin); [lia..|].
      by injection Hrc as <- <-.
    + specialize (Hext {| path_data := ""; filename_targets := "";
                          image_filenames := []; y := []; _n_samples := 0 |}
                       ""%string).
      unfold image_path, Py.path_join in Hext. simpl in Hext.
      injection Hext as Hext. by destruct (Py.starts_with_sep _).
  - intros (Hcrop & Hside & Hext). repeat split.
    + intros self fn. by rewrite Hext.
    + intros h w Hh Hw. exists (target_shape h w).1, (target_shape h w).2.
      rewrite <- surjective_pairing, Hside.
      split; [by apply resize_shape_target|by apply target_shape_short_side].
    + intros im h w Him Hh Hw. rewrite Hcrop.
      destruct (prep_image_spec (float_dtype s) im h w 3 Him Hh Hw)
        as (t & Ht & Hdt & Hsh & _).
      by exists t.
Qed.

End Preprocessing.

(** C8. Reversing the first axis, the channel axis at that point of
    [prep_image], twice gives the array back. *)
Theorem flip_axis0_involutive {A} (a : list (list (list A))) :
  Np.flip_axis0 (Np.flip_axis0 a) = a.
Proof. unfold Np.flip_axis0. apply reverse_involutive. Qed.

(** ** The reference resampler meets the contract of [resize] *)

Lemma nth_hd_elem {B} (l : list B) (n : nat) (d : B) :
  l ≠ [] → nth n l (hd d l) ∈ l.
Proof.
  intros Hl. destruct (decide (n < length l)%nat) as [Hn|Hn].
  - apply list_elem_of_In, nth_In, Hn.
  - rewrite nth_overflow by lia. destruct l; [done|]. simpl. left.
Qed.

Lemma nn_resize_rect {A} (im : list (list (list A))) (shape : Z * Z)
    (preserve_range : bool) (d0 d1 d2 : nat) :
  Np.rect3 d0 d1 d2 im → (0 < d0)%nat → (0 < d1)%nat →
  0 < shape.1 → 0 < shape.2 →
  Np.rect3 (Z.to_nat shape.1) (Z.to_nat shape.2) d2
    (nn_resize im shape preserve_range).
Proof.
  intros [Hlen Him] H0 H1 _ _. unfold nn_resize. split.
  - by rewrite length_fmap, length_seq.
  - apply Forall_fmap, Forall_forall. intros i _. simpl.
    set (row := nth _ im (hd [] im)).
    assert (row ∈ im) as Hrow
      by (apply nth_hd_elem; intros ->; simpl in *; lia).
    rewrite Forall_forall in Him. destruct (Him row Hrow) as [Hrlen Hpx].
    split.
    + by rewrite length_fmap, length_seq.
    + apply Forall_fmap, Forall_forall. intros j _. simpl.
      rewrite Forall_forall in Hpx. apply Hpx.
      apply nth_hd_elem. intros Hnil. rewrite Hnil in Hrlen. simpl in *; lia.
Qed.

Lemma tiny_image_rect : Np.rect3 1 2 3 tiny_image.
Proof. repeat constructor. Qed.

Lemma prep_resize_short_side_256_witness :
  Np.rect3 1 2 3 tiny_image
  ∧ ∃ r c : Z,
      (r, c) = (256, 512)
      ∧ prep_resize nn_resize tiny_image = Ok (nn_resize tiny_image (r, c) true)
      ∧ Z.min r c = 256.
Proof.
  split; [exact tiny_image_rect|].
  destruct (prep_resize_short_side_256 nn_resize (@nn_resize_rect Z)
              tiny_image 1 2 tiny_image_rect)
    as (r & c & Hrc & Hrs & _ & Hmin & _); [lia|lia|].
  exists r, c. split; [exact Hrc|]. split; [exact Hrs|exact Hmin].
Defined.

Lemma prep_image_center_crop_witness :
  Np.rect3 1 2 3 tiny_image
  ∧ ∃ t, prep_image nn_resize (λ _ z, z) float32 tiny_image = Ok t
         ∧ tensor_dtype t = float32
         ∧ Np.rect3 3 224 224 (tensor_data t).
Proof.
  split; [exact tiny_image_rect|].
  destruct (prep_image_center_crop nn_resize (λ _ z, z) (@nn_resize_rect Z)
              float32 tiny_image 1 2 tiny_image_rect)
    as (r & c & rs & t & _ & _ & Ht & Hdt & Hsh & _); [lia|lia|].
  exists t. split; [exact Ht|]. split; [exact Hdt|exact Hsh].
Defined.

Lemma only_dtype_is_configurable_witness :
  honours_settings (A:=Z) nn_resize (λ _ z, z)
    {| crop_size := 224; short_side := 256;
       float_dtype := float64; extension := ".jpeg" |}.
Proof.
  apply (only_dtype_is_configurable nn_resize (λ _ z, z)
           (@nn_resize_rect Z) 0).
  simpl. split; [reflexivity|]. split; reflexivity.
Defined.

(** The claim C9 fails: a pipeline asked for 128-pixel crops of images
    scaled to a short side of 512 and stored as [.png] files does not
    follow any of these three settings; the file name shows it. *)
Lemma settings_not_honoured :
  ¬ honours_settings (A:=Z) nn_resize (λ _ z, z)
      {| crop_size := 128; short_side := 512;
         float_dtype := float64; extension := ".png" |}.
Proof.
  intros (Hext & _ & _).
  specialize (Hext sample_dataset "img1"%string). vm_compute in Hext.
  discriminate Hext.
Qed.

(** ** Sequencing fallible steps *)

Section MapM.
Context {B C : Type} (f : B → result C).

Lemma mapM_Ok (l : list B) (ys : list C) :
  mapM f l = Ok ys ↔ Forall2 (λ x y, f x = Ok y) l ys.
Proof.
  split.
  - revert ys. induction l as [|x l IH]; intros ys Hys; simpl in Hys.
    + injection Hys as <-. constructor.
    + destruct (f x) as [z|] eqn:Hx; [|done].
      destruct (mapM f l) as [zs|]; [|done].
      injection Hys as <-. constructor; [done|by apply IH].
  - induction 1 as [|x z l zs Hx _ IH]; [done|].
    simpl. by rewrite Hx, IH.
Qed.

Lemma mapM_all_Ok (l : list B) :
  Forall (λ x, is_Ok (f x)) l → is_Ok (mapM f l).
Proof.
  induction 1 as [|x l [z Hx] _ [zs IH]]; [by eexists|].
  exists (z :: zs). simpl. by rewrite Hx, IH.
Qed.

(** The exception of a failed traversal is the one of some element. *)
Lemma mapM_Raise (l : list B) (e : exn) :
  mapM f l = Raise e → ∃ x, x ∈ l ∧ f x = Raise e.
Proof.
  induction l as [|x l IH]; [done|]. simpl.
  destruct (f x) as [z|e'] eqn:Hx.
  - destruct (mapM f l) as [zs|e'']; [done|].
    intros [= <-]. destruct IH as (x' & Hin & Hx'); [done|].
    exists x'. split; [by right|done].
  - intros [= <-]. exists x. split; [left|done].
Qed.

Lemma mapM_raises (l : list B) (x : B) :
  x ∈ l → raises (f x) → raises (mapM f l).
Proof.
  intros Hin [e Hx]. induction l as [|x' l IH]; [by apply elem_of_nil in Hin|].
  simpl. apply elem_of_cons in Hin as [<-|Hin].
  - rewrite Hx. by exists e.
  - destruct (f x'); [|by eexists].
    destruct (IH Hin) as [e' ->]. by exists e'.
Qed.

Lemma mapM_app_Ok (l1 l2 : list B) (k1 k2 : list C) :
  mapM f l1 = Ok k1 → mapM f l2 = Ok k2 → mapM f (l1 ++ l2) = Ok (k1 ++ k2).
Proof. rewrite !mapM_Ok. apply Forall2_app. Qed.

Lemma mapM_Ok_all (l : list B) (k : list C) :
  mapM f l = Ok k → Forall (λ x, is_Ok (f x)) l.
Proof.
  rewrite mapM_Ok. induction 1 as [|x z l k Hx _ IH]; constructor; [|done].
  by exists z.
Qed.

(** A traversal stops at the first element that raises. *)
Lemma mapM_first_Raise (l1 l2 : list B) (x : B) (e : exn) :
  Forall (λ x, is_Ok (f x)) l1 → f x = Raise e →
  mapM f (l1 ++ x :: l2) = Raise e.
Proof.
  intros Hl1 Hx. induction Hl1 as [|x1 l1 [z Hz] _ IH]; simpl.
  - by rewrite Hx.
  - by rewrite Hz, IH.
Qed.

Lemma mapM_app_Raise (l1 l2 : list B) (e : exn) :
  mapM f l1 = Raise e → mapM f (l1 ++ l2) = Raise e.
Proof.
  induction l1 as [|x l1 IH]; [done|]. simpl.
  destruct (f x) as [z|]; [|done].
  destruct (mapM f l1) as [zs|e'] eqn:Hl1; [done|].
  intros [= <-]. by rewrite IH.
Qed.

End MapM.

(** The first index of a sequence that is outside [0, n). *)
Lemma first_out_of_range (n : Z) (indices : list Z) :
  Exists (λ i, ¬ (0 ≤ i < n)) indices →
  ∃ before i after,
    indices = before ++ i :: after
    ∧ Forall (λ j, 0 ≤ j < n) before
    ∧ ¬ (0 ≤ i < n).
Proof.
  induction indices as [|j indices IH]; intros Hbad; [by inversion Hbad|].
  destruct (decide (0 ≤ j < n)) as [Hj|Hj].
  - apply Exists_cons in Hbad as [Hbad|Hbad]; [done|].
    destruct (IH Hbad) as (before & i & after & -> & Hbefore & Hi).
    exists (j :: before), i, after. split; [done|]. split; [|done].
    by constructor.
  - exists [], j, indices. by repeat split.
Qed.

(** ** Loading a batch *)

Section Loading.
Context {A : Type}.
Variable resize : list (list (list A)) → Z * Z → bool → list (list (list A)).
Variable astype : dtype → A → A.
Variable floatX_dtype : dtype.
Variable image_open : string → result (list (list (list A))).
Variable pandas_lookup : label_lookup.

Local Abbreviation prep := (prep_image resize astype floatX_dtype).
Local Abbreviation load_and_prep self :=
  (λ fn, im ← load_image image_open self fn; prep im).
Local Abbreviation load_batch' :=
  (load_batch resize astype floatX_dtype image_open pandas_lookup).

(** [prep_image] can only fail in the division, on an array without rows
    or columns. *)
Lemma prep_image_total (im : list (list (list A))) :
  0 < Np.dim0 im → 0 < Np.dim1 im → is_Ok (prep im).
Proof.
  intros Hh Hw. unfold prep_image, prep_resize, resize_shape, Py.floordiv.
  repeat case_decide; try lia; by eexists.
Qed.

Lemma prep_image_Raise (im : list (list (list A))) (e : exn) :
  prep im = Raise e → e = ZeroDivisionError.
Proof.
  unfold prep_image, prep_resize, resize_shape, Py.floordiv.
  repeat case_decide; simpl; unfold mret, result_ret; congruence.
Qed.

Lemma at_label_Some (s : list cell) (i : Z) (c : cell) :
  at_label s i = Some c → 0 ≤ i < Z.of_nat (length s).
Proof.
  unfold at_label. case_decide; [|done]. intros Hc.
  apply lookup_lt_Some in Hc. lia.
Qed.

Lemma at_label_None (s : list cell) (i : Z) :
  ¬ (0 ≤ i < Z.of_nat (length s)) → at_label s i = None.
Proof.
  intros Hi. unfold at_label. case_decide; [|done].
  apply lookup_ge_None. lia.
Qed.

(** With every key a label, the three pandas behaviours agree. *)
Lemma series_getitem_found (s : list cell) (indices : list Z) :
  Forall (λ i, is_Some (at_label s i)) indices →
  series_getitem pandas_lookup s indices
  = Ok (default CNaN <$> (at_label s <$> indices)).
Proof.
  intros Hall. unfold series_getitem. destruct pandas_lookup; [| |done].
  - rewrite decide_True; [done|]. by apply Forall_fmap.
  - rewrite decide_False; [done|]. intros [Hne Hnone].
    destruct indices as [|i indices]; [done|].
    apply Forall_cons in Hall as [[c Hc] _].
    apply Forall_fmap, Forall_cons in Hnone as [Hnone _].
    simpl in Hnone. congruence.
Qed.

Lemma ndarray_item_valid (a : list cell) (i : Z) :
  0 ≤ i < Z.of_nat (length a) →
  ∃ c, a !! Z.to_nat i = Some c ∧ ndarray_item a i = Ok c.
Proof.
  intros Hi. destruct (lookup_lt_is_Some_2 a (Z.to_nat i)) as [c Hc]; [lia|].
  exists c. split; [done|]. unfold ndarray_item.
  rewrite decide_True by lia. rewrite (decide_False (P := i < 0)) by lia.
  by rewrite Hc.
Qed.

(** What [load_batch] returns on valid indices whose files decode. *)
Lemma load_batch_spec (self : KaggleDR) (indices : list Z) :
  consistent self →
  Forall (λ i, 0 ≤ i < n_samples self) indices →
  Forall (decodable image_open self) indices →
  ∃ X labels,
    load_batch' self indices = Ok (X, labels)
    ∧ length X = length indices
    ∧ length labels = length indices
    ∧ ∀ (k : nat) (i : Z), indices !! k = Some i →
        (∃ c, y self !! Z.to_nat i = Some c ∧ labels !! k = Some c)
        ∧ (∃ fn im t, at_label (image_filenames self) i = Some fn
                      ∧ load_image image_open self fn = Ok im
                      ∧ prep im = Ok t
                      ∧ X !! k = Some t).
Proof.
  intros [Hfn Hy] Hvalid Hdec. unfold load_batch.
  rewrite series_getitem_found; cycle 1.
  { eapply Forall_impl; [exact Hdec|]. intros i (fn & _ & Hfn' & _). by eexists. }
  set (fns := default CNaN <$> (at_label (image_filenames self) <$> indices)).
  destruct (mapM_all_Ok (load_and_prep self) fns) as [X HX].
  { apply Forall_fmap, Forall_fmap.
    eapply Forall_impl; [exact Hdec|]. intros i (fn & im & Hi & Him & Hh & Hw).
    simpl. rewrite Hi. simpl. rewrite Him. simpl. by apply prep_image_total. }
  destruct (mapM_all_Ok (ndarray_item (y self)) indices) as [labels Hlabels].
  { eapply Forall_impl; [exact Hvalid|]. intros i Hi. cbv beta in Hi.
    destruct (ndarray_item_valid (y self) i) as (c & _ & Hc); [lia|].
    by exists c. }
  simpl. rewrite HX. simpl. unfold ndarray_getitem. rewrite Hlabels. simpl.
  apply mapM_Ok in HX, Hlabels.
  pose proof (Forall2_length _ _ _ HX) as HlenX.
  pose proof (Forall2_length _ _ _ Hlabels) as Hlenl.
  unfold fns in HlenX. rewrite !length_fmap in HlenX.
  unfold np_array. rewrite decide_True by (split; congruence).
  exists X, labels. split; [done|]. split; [done|]. split; [done|].
  intros k i Hk. split.
  - destruct (Forall2_lookup_l _ _ _ _ _ Hlabels Hk) as (c & Hc & Hitem).
    rewrite Forall_lookup in Hvalid. specialize (Hvalid k i Hk).
    cbv beta in Hvalid.
    destruct (ndarray_item_valid (y self) i) as (c' & Hc' & Hitem'); [lia|].
    exists c. split; [congruence|done].
  - rewrite Forall_lookup in Hdec.
    destruct (Hdec k i Hk) as (fn & im & Hi & Him & Hh & Hw).
    assert (fns !! k = Some fn) as Hfnk.
    { unfold fns. rewrite !list_lookup_fmap, Hk. simpl. by rewrite Hi. }
    destruct (Forall2_lookup_l _ _ _ _ _ HX Hfnk) as (t & Ht & Hprep).
    simpl in Hprep. rewrite Him in Hprep. simpl in Hprep.
    by exists fn, im, t.
Qed.

(** C1. For valid indices whose image files decode, [load_batch] returns a
    batch and a label vector that both have one entry per index; entry [k]
    of the labels is the label of sample [indices[k]] and entry [k] of the
    batch is the preprocessed image of that sample. *)
Theorem load_batch_aligned (self : KaggleDR) (indices : list Z) :
  consistent self →
  Forall (λ i, 0 ≤ i < n_samples self) indices →
  Forall (decodable image_open self) indices →
  ∃ X labels,
    load_batch' self indices = Ok (X, labels)
    ∧ length X = length indices
    ∧ length labels = length indices
    ∧ ∀ (k : nat) (i : Z), indices !! k = Some i →
        (∃ c, y self !! Z.to_nat i = Some c ∧ labels !! k = Some c)
        ∧ (∃ fn im t, at_label (image_filenames self) i = Some fn
                      ∧ load_image image_open self fn = Ok im
                      ∧ prep im = Ok t
                      ∧ X !! k = Some t).
Proof. apply load_batch_spec. Qed.

(** What loading and preprocessing one file can raise. *)
Lemma load_and_prep_Raise (self : KaggleDR) (fn : cell) (e : exn) :
  load_and_prep self fn = Raise e →
  e = TypeError ∨ e = ZeroDivisionError ∨ ∃ p, image_open p = Raise e.
Proof.
  unfold load_image, image_path, add_str.
  destruct fn as [z|s|]; simpl; try (intros [= <-]; by left).
  destruct (image_open _) as [im|e'] eqn:Hopen; simpl.
  - intros He%prep_image_Raise. right; by left.
  - intros [= <-]. right; right. by eexists.
Qed.

Lemma load_and_prep_NaN (self : KaggleDR) :
  load_and_prep self CNaN = Raise TypeError.
Proof. done. Qed.

(** With a missing name among the names, loading stops at the first file
    before it that fails, or else at the missing name itself. *)
Lemma missing_name_stops (self : KaggleDR) (names later : list cell) :
  mapM (load_and_prep self) (names ++ CNaN :: later)
  = Raise match mapM (load_and_prep self) names with
          | Ok _ => TypeError
          | Raise e => e
          end.
Proof.
  destruct (mapM (load_and_prep self) names) as [X|e] eqn:Hnames.
  - apply mapM_first_Raise; [by eapply mapM_Ok_all|done].
  - by apply mapM_app_Raise.
Qed.

(** C6, as the code has it. With an index outside [0, n_samples) among
    the indices, [load_batch] returns no batch, and what it raises is
    decided by the lookup of the file names, which comes first and goes by
    label. Where pandas rejects the missing label, always in the strict
    behaviour and in the lenient one when every index is out of range, it
    is [KeyError]. Otherwise the missing name is NaN and the files are
    loaded in order up to it: the exception is that of the first file
    before the first out-of-range index that fails to load or preprocess,
    and [TypeError], for the NaN name, when they all load. The positional
    lookup of the labels, the only place an [IndexError] could come from,
    is never reached. *)
Theorem load_batch_out_of_range (self : KaggleDR) (indices : list Z) :
  consistent self →
  Exists (λ i, ¬ (0 ≤ i < n_samples self)) indices →
  (∀ p, image_open p ≠ Raise IndexError) →
  ∃ e before i after,
    indices = before ++ i :: after
    ∧ Forall (λ j, 0 ≤ j < n_samples self) before
    ∧ ¬ (0 ≤ i < n_samples self)
    ∧ load_batch' self indices = Raise e
    ∧ e ≠ IndexError
    ∧ (pandas_lookup = LabelStrict → e = KeyError)
    ∧ (pandas_lookup = LabelLenient →
       Forall (λ j, ¬ (0 ≤ j < n_samples self)) indices → e = KeyError)
    ∧ (pandas_lookup = LabelReindex
       ∨ (pandas_lookup = LabelLenient
          ∧ Exists (λ j, 0 ≤ j < n_samples self) indices) →
       match mapM (load_and_prep self)
               (default CNaN <$> (at_label (image_filenames self) <$> before))
       with
       | Ok _ => e = TypeError
       | Raise e' => e = e'
       end).
Proof.
  intros [Hfn Hy] Hbad Hopen.
  destruct (first_out_of_range _ _ Hbad)
    as (before & i & after & -> & Hbefore & Hi).
  set (names := default CNaN <$> (at_label (image_filenames self) <$> before)).
  set (later := default CNaN <$> (at_label (image_filenames self) <$> after)).
  set (first_error := match mapM (load_and_prep self) names with
                      | Ok _ => TypeError
                      | Raise e => e
                      end).
  assert (at_label (image_filenames self) i = None) as Hnone
    by (apply at_label_None; lia).
  assert (default CNaN <$> (at_label (image_filenames self)
                              <$> before ++ i :: after)
          = names ++ CNaN :: later) as Hfill
    by (by rewrite !fmap_app, !fmap_cons, Hnone).
  pose proof (missing_name_stops self names later) as Hload.
  fold first_error in Hload.
  assert (first_error ≠ IndexError) as Hne.
  { apply mapM_Raise in Hload as (fn & _ & He).
    apply load_and_prep_Raise in He as [->|[->|[p Hp]]]; try done.
    intros Heq. rewrite Heq in Hp. by apply (Hopen p). }
  assert (match mapM (load_and_prep self) names with
          | Ok _ => first_error = TypeError
          | Raise e' => first_error = e'
          end) as Hfirst
    by (unfold first_error; by destruct (mapM _ names)).
  assert (∀ j, j ∈ before ++ i :: after → 0 ≤ j < n_samples self →
               at_label (image_filenames self) j ≠ None) as Hsome.
  { intros j _ Hj Hjn.
    destruct (lookup_lt_is_Some_2 (image_filenames self) (Z.to_nat j))
      as [c Hc]; [lia|].
    unfold at_label in Hjn. rewrite decide_True in Hjn by lia. congruence. }
  exists (match pandas_lookup with
          | LabelStrict => KeyError
          | LabelLenient =>
              if decide (Forall (λ j, ¬ (0 ≤ j < n_samples self))
                           (before ++ i :: after))
              then KeyError else first_error
          | LabelReindex => first_error
          end), before, i, after.
  split; [done|]. split; [done|]. split; [done|].
  unfold load_batch, series_getitem. rewrite Hfill.
  destruct pandas_lookup.
  - rewrite decide_False.
    + repeat split; try done. by intros [|[? _]].
    + intros Hall. rewrite Forall_forall in Hall.
      destruct (Hall None) as [c Hc]; [|done].
      rewrite <- Hnone. apply list_elem_of_fmap_2. set_solver.
  - destruct (decide (Forall (λ j, ¬ (0 ≤ j < n_samples self))
                        (before ++ i :: after))) as [Hoor|Hoor].
    + rewrite decide_True.
      * repeat split; try done. intros [|[_ Hin]]; [done|exfalso].
        apply Exists_exists in Hin as (j & Hj & Hjn).
        rewrite Forall_forall in Hoor. by apply (Hoor j).
      * split; [by destruct before|].
        apply Forall_fmap, Forall_forall. intros j Hj. simpl.
        rewrite Forall_forall in Hoor. apply at_label_None.
        specialize (Hoor j Hj). simpl in Hoor. lia.
    + rewrite decide_False.
      * simpl. rewrite Hload. repeat split; try done.
      * intros [_ Hall]. apply Hoor, Forall_forall. intros j Hj Hjn.
        apply (Hsome j Hj Hjn).
        apply Forall_fmap in Hall. rewrite Forall_forall in Hall.
        by apply (Hall j).
  - simpl. rewrite Hload. repeat split; try done.
Qed.

End Loading.

Lemma sample_dataset_consistent : consistent sample_dataset.
Proof. by split. Qed.

Lemma sample_dataset_decodable :
  Forall (decodable sample_open sample_dataset) [1; 0].
Proof.
  repeat constructor.
  - exists (CStr "img2"), tiny_image. by repeat split.
  - exists (CStr "img1"), tiny_image. by repeat split.
Qed.

Lemma load_batch_aligned_witness :
  consistent sample_dataset
  ∧ Forall (λ i, 0 ≤ i < n_samples sample_dataset) [1; 0]
  ∧ ∃ X labels,
      load_batch nn_resize (λ _ z, z) float32 sample_open LabelStrict
        sample_dataset [1; 0] = Ok (X, labels)
      ∧ length X = 2%nat
      ∧ labels !! 0%nat = Some (CInt 2)
      ∧ labels !! 1%nat = Some (CInt 0).
Proof.
  assert (Forall (λ i, 0 ≤ i < n_samples sample_dataset) [1; 0]) as Hvalid
    by (repeat constructor; vm_compute; done).
  split; [exact sample_dataset_consistent|]. split; [exact Hvalid|].
  destruct (load_batch_aligned nn_resize (λ _ z, z) float32 sample_open
              LabelStrict sample_dataset [1; 0] sample_dataset_consistent
              Hvalid sample_dataset_decodable)
    as (X & labels & Hload & HX & _ & Hk).
  exists X, labels. split; [exact Hload|]. split; [exact HX|].
  destruct (Hk 0%nat 1 eq_refl) as [(c0 & Hy0 & Hl0) _].
  destruct (Hk 1%nat 0 eq_refl) as [(c1 & Hy1 & Hl1) _].
  injection Hy0 as <-. injection Hy1 as <-. by split.
Defined.

(** The claim C6 fails: index 2 of a dataset of two samples is out of
    range, and whichever way pandas treats the missing label, the
    exception is not [IndexError]. *)
Lemma out_of_range_not_IndexError :
  ¬ (0 ≤ 2 < n_samples sample_dataset)
  ∧ load_batch nn_resize (λ _ z, z) float32 sample_open LabelStrict
      sample_dataset [2] = Raise KeyError
  ∧ load_batch nn_resize (λ _ z, z) float32 sample_open LabelLenient
      sample_dataset [2] = Raise KeyError
  ∧ load_batch nn_resize (λ _ z, z) float32 sample_open LabelReindex
      sample_dataset [2] = Raise TypeError.
Proof. split; [vm_compute; intros [_ H]; done|]. by vm_compute. Qed.

Lemma sample_open_no_IndexError (p : string) :
  sample_open p ≠ Raise IndexError.
Proof. unfold sample_open. by repeat case_decide. Qed.

Lemma load_batch_out_of_range_witness :
  consistent sample_dataset
  ∧ Exists (λ i, ¬ (0 ≤ i < n_samples sample_dataset)) [0; -1]
  ∧ load_batch nn_resize (λ _ z, z) float32 sample_open LabelStrict
      sample_dataset [0; -1] = Raise KeyError.
Proof.
  assert (Exists (λ i, ¬ (0 ≤ i < n_samples sample_dataset)) [0; -1]) as Hbad
    by (right; left; vm_compute; intros [H _]; by apply H).
  split; [exact sample_dataset_consistent|]. split; [exact Hbad|].
  destruct (load_batch_out_of_range nn_resize (λ _ z, z) float32 sample_open
              LabelStrict sample_dataset [0; -1] sample_dataset_consistent
              Hbad sample_open_no_IndexError)
    as (e & before & i & after & _ & _ & _ & He & _ & Hkey & _).
  rewrite He. f_equal. exact (Hkey eq_refl).
Defined.

(** ** Construction *)

Section Construction.
Variable read_csv : string → result (gmap string (list cell)).

(** C5, as the code has it. [__init__] fails in two cases and returns no
    object then: the csv reader raises, and its exception is passed on as
    it is, or the table has no [image] or no [level] column, which is a
    [KeyError]. In every other case the object is built from the two
    columns as they are: the cells are not inspected. *)
Theorem init_failures (path_data filename_targets : string) :
  (∀ e, read_csv filename_targets = Raise e →
        __init__ read_csv path_data filename_targets = Raise e)
  ∧ (∀ table, read_csv filename_targets = Ok table →
        table !! "image"%string = None ∨ table !! "level"%string = None →
        __init__ read_csv path_data filename_targets = Raise KeyError)
  ∧ (∀ table fns labels, read_csv filename_targets = Ok table →
        table !! "image"%string = Some fns →
        table !! "level"%string = Some labels →
        __init__ read_csv path_data filename_targets
        = Ok {| path_data := path_data;
                filename_targets := filename_targets;
                image_filenames := fns;
                y := labels;
                _n_samples := Z.of_nat (length labels) |}).
Proof.
  unfold __init__, column. repeat split.
  - by intros e ->.
  - intros table -> [Hnone|Hnone]; simpl.
    + by rewrite Hnone.
    + rewrite Hnone. by destruct (table !! "image"%string).
  - intros table fns labels -> Hfns Hlabels. simpl.
    by rewrite Hfns, Hlabels.
Qed.

End Construction.

Lemma init_failures_witness :
  __init__ (csv_of "labels.csv" sample_labels) "data" "missing.csv"
    = Raise IOError
  ∧ __init__ (csv_of "labels.csv" {[ "image"%string := [CStr "img1"] ]})
      "data" "labels.csv" = Raise KeyError
  ∧ __init__ (csv_of "labels.csv" sample_labels) "data" "labels.csv"
    = Ok sample_dataset.
Proof.
  split; [|split].
  - apply (init_failures (csv_of "labels.csv" sample_labels)
             "data" "missing.csv"). reflexivity.
  - apply (init_failures
             (csv_of "labels.csv" {[ "image"%string := [CStr "img1"] ]})
             "data" "labels.csv") with {[ "image"%string := [CStr "img1"] ]}.
    + reflexivity.
    + right. reflexivity.
  - apply (init_failures (csv_of "labels.csv" sample_labels)
             "data" "labels.csv") with sample_labels; reflexivity.
Defined.

(** The claim C5 fails: the second row of [textual_labels] has no integer
    label, and the dataset is constructed all the same. *)
Lemma init_accepts_unparsed_rows :
  ¬ parsed_rows textual_labels
  ∧ ∃ self, __init__ (csv_of "labels.csv" textual_labels) "data" "labels.csv"
            = Ok self
            ∧ y self = [CInt 0; CStr "severe"].
Proof.
  split.
  - intros (fns & labels & _ & Hlevel & _ & _ & Hint).
    vm_compute in Hlevel. injection Hlevel as <-.
    apply Forall_cons in Hint as [_ Hint].
    apply Forall_cons in Hint as [[z Hz] _]. discriminate Hz.
  - eexists. split; [reflexivity|reflexivity].
Qed.

(** ** Iterating over minibatches *)

Lemma batch_size_not_global : datasets_globals !! "batch_size"%string = None.
Proof. reflexivity. Qed.

Section Iteration.
Context {A rng : Type}.
Variable resize : list (list (list A)) → Z * Z → bool → list (list (list A)).
Variable astype : dtype → A → A.
Variable floatX_dtype : dtype.
Variable image_open : string → result (list (list (list A))).
Variable pandas_lookup : label_lookup.
Variable shuffle_with : rng → list Z → rng * list Z.

Local Abbreviation entry_world' := (entry_world shuffle_with).
Local Abbreviation load_batch' :=
  (load_batch resize astype floatX_dtype image_open pandas_lookup).
Local Abbreviation loop_step' :=
  (loop_step (rng:=rng) resize astype floatX_dtype image_open pandas_lookup).
Local Abbreviation next' :=
  (next resize astype floatX_dtype image_open pandas_lookup shuffle_with).
Local Abbreviation consume' :=
  (consume resize astype floatX_dtype image_open pandas_lookup shuffle_with).

Lemma load_batch_size_unbound (w : world rng) :
  module_globals w !! "batch_size"%string = None →
  load_batch_size w = Raise NameError.
Proof. intros H. unfold load_batch_size, load_global. by rewrite H. Qed.

Lemma load_batch_size_bound (w : world rng) (b : Z) :
  module_globals w !! "batch_size"%string = Some (PyInt b) →
  load_batch_size w = Ok b.
Proof. intros H. unfold load_batch_size, load_global. by rewrite H. Qed.

Lemma entry_world_globals (w : world rng) (indices : nat) (shuffle : bool) :
  module_globals (entry_world' w indices shuffle) = module_globals w.
Proof.
  unfold entry_world, np_random_shuffle. destruct shuffle; [|done].
  by destruct (shuffle_with _ _).
Qed.

Lemma loop_step_frame (w : world rng) self indices batchsize pending :
  (loop_step' w self indices batchsize pending).1.1 = w
  ∧ started (loop_step' w self indices batchsize pending).1.2.
Proof.
  unfold loop_step. destruct pending as [|start_idx pending]; [done|].
  by destruct (_ ≫= _).
Qed.

(** Once started, a generator leaves the world as it is. *)
Lemma next_frame (w : world rng) (g : generator) :
  started g → (next' w g).1.1 = w ∧ started (next' w g).1.2.
Proof.
  destruct g as [| |]; simpl; [intros []| |done].
  intros _. apply loop_step_frame.
Qed.

Lemma next_created (w : world rng) self indices batchsize shuffle :
  (next' w (Created self indices batchsize shuffle)).1.1
  = entry_world' w indices shuffle
  ∧ started (next' w (Created self indices batchsize shuffle)).1.2.
Proof.
  unfold next.
  destruct (_ ≫= _); [apply loop_step_frame|done].
Qed.

Lemma consume_S (fuel : nat) (w : world rng) (g : generator) :
  consume' (S fuel) w g
  = match next' w g with
    | (w', g', Yield b) =>
        let '(w'', bs, e) := consume' fuel w' g' in (w'', b :: bs, e)
    | (w', _, StopIteration) => (w', [], Exhausted)
    | (w', _, Throw e) => (w', [], Failed e)
    end.
Proof. done. Qed.

Lemma consume_frame (fuel : nat) (w : world rng) (g : generator) :
  started g → (consume' fuel w g).1.1 = w.
Proof.
  revert w g. induction fuel as [|fuel IH]; intros w g Hg; [done|].
  rewrite consume_S. destruct (next_frame w g Hg) as [Hw Hg'].
  destruct (next' w g) as [[w' g'] [b| |e]]; simpl in *; subst; try done.
  specialize (IH w g' Hg').
  by destruct (consume' fuel w g') as [[w'' bs] e].
Qed.

Lemma consume_created (fuel : nat) (w : world rng) self indices batchsize
    shuffle :
  (consume' (S fuel) w (Created self indices batchsize shuffle)).1.1
  = entry_world' w indices shuffle.
Proof.
  rewrite consume_S.
  destruct (next_created w self indices batchsize shuffle) as [Hw Hg'].
  destruct (next' w _) as [[w' g'] [b| |e]]; simpl in *; subst; try done.
  pose proof (consume_frame fuel (entry_world' w indices shuffle) g' Hg') as IH.
  by destruct (consume' fuel _ g') as [[w'' bs] e].
Qed.

(** With [batch_size] unbound, the first [next()] raises [NameError]. *)
Lemma consume_unbound (fuel : nat) (w : world rng) self indices batchsize
    shuffle :
  module_globals w !! "batch_size"%string = None →
  consume' (S fuel) w (iterate_minibatches self indices batchsize shuffle)
  = (entry_world' w indices shuffle, [], Failed NameError).
Proof.
  intros Hunbound. unfold iterate_minibatches. rewrite consume_S.
  unfold next. rewrite load_batch_size_unbound; [done|].
  by rewrite entry_world_globals.
Qed.

(** Without shuffling, no [next()] changes the world, whatever the module's
    globals are. *)
Lemma iterate_unshuffled_frame (fuel : nat) (w : world rng) self indices
    batchsize :
  (consume' fuel w (iterate_minibatches self indices batchsize false)).1.1 = w.
Proof.
  destruct fuel as [|fuel]; [done|].
  unfold iterate_minibatches. by rewrite consume_created.
Qed.

(** Had the module a global [batch_size] bound to [b > 0], consuming a
    suspended generator would give one batch per pending start index, each
    the [load_batch] of the window of [b] indices that starts there. *)
Lemma consume_suspended_bound (w : world rng) self indices batchsize (b : Z)
    (pending : list Z) (batches : list (list (tensor A) * list cell)) :
  module_globals w !! "batch_size"%string = Some (PyInt b) →
  Forall2 (λ start_idx batch,
             load_batch' self
               (Py.slice (deref w indices) start_idx (start_idx + b))
             = Ok batch) pending batches →
  consume' (S (length pending)) w (Suspended self indices batchsize pending)
  = (w, batches, Exhausted).
Proof.
  intros Hb%load_batch_size_bound Hall.
  induction Hall as [|start_idx batch pending batches Hbatch _ IH]; [done|].
  cbn [length]. rewrite consume_S. unfold next, loop_step.
  rewrite Hb. cbn [mbind result_bind]. rewrite Hbatch. by rewrite IH.
Qed.

(** In that case the generator would yield [len(indices) // b] batches over
    consecutive windows and drop the remainder; the parameter [batchsize]
    plays no part. *)
Lemma consume_bound (w : world rng) self indices batchsize (b : Z)
    (batches : list (list (tensor A) * list cell)) :
  module_globals w !! "batch_size"%string = Some (PyInt b) → 0 < b →
  let idx := deref w indices in
  let windows := Z.to_nat (Z.of_nat (length idx) / b) in
  Forall2 (λ (k : nat) batch,
             load_batch' self
               (Py.slice idx (Z.of_nat k * b) (Z.of_nat k * b + b))
             = Ok batch) (seq 0 windows) batches →
  consume' (S windows) w (iterate_minibatches self indices batchsize false)
  = (w, batches, Exhausted)
  ∧ length batches = windows.
Proof.
  intros Hb Hpos idx windows Hall.
  split; [|by rewrite <- (Forall2_length _ _ _ Hall), length_seq].
  pose proof (consume_suspended_bound w self indices batchsize b
                ((λ k : nat, Z.of_nat k * b) <$> seq 0 windows) batches Hb)
    as Hrun.
  rewrite length_fmap, length_seq in Hrun.
  rewrite <- Hrun; [|by apply Forall2_fmap_l].
  unfold iterate_minibatches. rewrite !consume_S. unfold next, entry_world.
  rewrite (load_batch_size_bound w b Hb). simpl.
  by rewrite range_full_windows.
Qed.

(** C7. With [shuffle=True] the first [next()] overwrites the caller's
    sequence, the object itself and not a copy, with what
    [np.random.shuffle] makes of it, and nothing later touches it: however
    far the consumer gets, the caller's sequence holds that permutation of
    its former elements, and every other object is as it was. *)
Theorem shuffle_permutes_in_place (fuel : nat) (w : world rng) self
    (indices : nat) (batchsize : Z) (idx : list Z) :
  (∀ g l, (shuffle_with g l).2 ≡ₚ l) →
  heap w !! indices = Some idx →
  let w' := (consume' (S fuel) w
               (iterate_minibatches self indices batchsize true)).1.1 in
  ∃ idx', heap w' !! indices = Some idx'
          ∧ idx' = (shuffle_with (random_state w) idx).2
          ∧ idx' ≡ₚ idx
          ∧ ∀ l, l ≠ indices → heap w' !! l = heap w !! l.
Proof.
  intros Hperm Hidx w'. subst w'. unfold iterate_minibatches.
  rewrite consume_created. unfold entry_world, np_random_shuffle, deref.
  rewrite Hidx. simpl. specialize (Hperm (random_state w) idx).
  destruct (shuffle_with (random_state w) idx) as [g idx']. simpl in *.
  exists idx'. split; [by rewrite lookup_insert_eq|].
  split; [done|]. split; [done|].
  intros l Hl. by rewrite lookup_insert_ne.
Qed.

(** C2, at the code. In the module as it is written, the first [next()]
    on a generator of [iterate_minibatches] raises [NameError], for every
    dataset, index sequence, [batchsize] and [shuffle]: the loop head reads
    [batch_size], which is neither the parameter [batchsize] nor a global.
    No batch is yielded, where the claim has [len(indices) // batch_size]. *)
Theorem iterate_minibatches_NameError (fuel : nat) (h : gmap nat (list Z))
    (g : rng) self (indices : nat) (batchsize : Z) (shuffle : bool) :
  consume' (S fuel) (World h g datasets_globals)
    (iterate_minibatches self indices batchsize shuffle)
  = (entry_world' (World h g datasets_globals) indices shuffle, [],
     Failed NameError).
Proof. apply consume_unbound, batch_size_not_global. Qed.

(** C10, at the code. With [shuffle=False] the caller's sequence and
    everything else stay as they were, but no batch comes out: a consumer
    that calls [next()] at all gets [NameError] in place of the first
    window's batch. *)
Theorem iterate_minibatches_unshuffled (fuel : nat) (h : gmap nat (list Z))
    (g : rng) self (indices : nat) (batchsize : Z) :
  consume' fuel (World h g datasets_globals)
    (iterate_minibatches self indices batchsize false)
  = (World h g datasets_globals, [],
     match fuel with O => Running | S _ => Failed NameError end).
Proof.
  destruct fuel as [|fuel]; [done|].
  by rewrite consume_unbound by apply batch_size_not_global.
Qed.

End Iteration.

Lemma rev_shuffle_perm (g : nat) (l : list Z) : (rev_shuffle g l).2 ≡ₚ l.
Proof. apply reverse_Permutation. Qed.

Lemma shuffle_permutes_in_place_witness :
  let w := World {[ 0%nat := [0; 1; 2] ]} 0%nat datasets_globals in
  heap w !! 0%nat = Some [0; 1; 2]
  ∧ ∃ idx',
      heap (consume nn_resize (λ _ z, z) float32 sample_open LabelStrict
              rev_shuffle 1 w
              (iterate_minibatches sample_dataset 0%nat 2 true)).1.1 !! 0%nat
      = Some idx'
      ∧ idx' = [2; 1; 0]
      ∧ idx' ≡ₚ [0; 1; 2].
Proof.
  intros w. split; [reflexivity|].
  destruct (shuffle_permutes_in_place nn_resize (λ _ z, z) float32 sample_open
              LabelStrict rev_shuffle 0 w sample_dataset 0%nat 2 [0; 1; 2]
              rev_shuffle_perm eq_refl) as (idx' & Hheap & Hidx & Hperm & _).
  exists idx'. split; [exact Hheap|]. split; [exact Hidx|exact Hperm].
Defined.

(** The two indices of the sample dataset with [batchsize = 2]: the batch
    of the one full window exists, and the generator does not yield it. *)
Example iterate_two_samples :
  is_Ok (load_batch nn_resize (λ _ z, z) float32 sample_open LabelStrict
           sample_dataset (Py.slice [0; 1] 0 2))
  ∧ consume nn_resize (λ _ z, z) float32 sample_open LabelStrict rev_shuffle 3
      (World {[ 0%nat := [0; 1] ]} 0%nat datasets_globals)
      (iterate_minibatches sample_dataset 0%nat 2 false)
    = (World {[ 0%nat := [0; 1] ]} 0%nat datasets_globals, [],
       Failed NameError).
Proof.
  split.
  - destruct (load_batch_spec nn_resize (λ _ z, z) float32 sample_open
                LabelStrict sample_dataset [0; 1] sample_dataset_consistent)
      as (X & labels & Hload & _).
    + repeat constructor; vm_compute; done.
    + repeat constructor.
      * exists (CStr "img1"), tiny_image. by repeat split.
      * exists (CStr "img2"), tiny_image. by repeat split.
    + by exists (X, labels).
  - exact (consume_unbound nn_resize (λ _ z, z) float32 sample_open
             LabelStrict rev_shuffle 2
             (World {[ 0%nat := [0; 1] ]} 0%nat datasets_globals)
             sample_dataset 0%nat 2 false batch_size_not_global).
Qed.

(** * Further properties *)

(** ** More on preprocessing *)

Section PreprocessingEdges.
Context {A : Type}.
Variable resize : list (list (list A)) → Z * Z → bool → list (list (list A)).
Variable astype : dtype → A → A.

Hypothesis resize_rect : ∀ im shape preserve_range (d0 d1 d2 : nat),
  Np.rect3 d0 d1 d2 im → (0 < d0)%nat → (0 < d1)%nat →
  0 < shape.1 → 0 < shape.2 →
  Np.rect3 (Z.to_nat shape.1) (Z.to_nat shape.2) d2
    (resize im shape preserve_range).

(** X1. On an array without rows or without columns [prep_image] raises
    [ZeroDivisionError] in the computation of the new size, whatever
    [resize] would do; on an array with rows and columns that computation
    does not raise. *)
Theorem prep_image_empty_array (floatX_dtype : dtype)
    (im : list (list (list A))) :
  (Np.dim0 im = 0 ∨ Np.dim1 im = 0 →
   prep_image resize astype floatX_dtype im = Raise ZeroDivisionError)
  ∧ (raises (resize_shape (Np.dim0 im) (Np.dim1 im))
     ↔ Np.dim0 im = 0 ∨ Np.dim1 im = 0)
  ∧ (∀ e, resize_shape (Np.dim0 im) (Np.dim1 im) = Raise e
          → e = ZeroDivisionError).
Proof.
  assert (0 ≤ Np.dim0 im ∧ 0 ≤ Np.dim1 im) as [Hh Hw]
    by (unfold Np.dim0, Np.dim1; lia).
  unfold prep_image, prep_resize, resize_shape, Py.floordiv.
  split; [|split].
  - intros Hempty. repeat case_decide; try done; lia.
  - split.
    + intros [e He]. repeat case_decide; try done; lia.
    + intros Hempty. exists ZeroDivisionError.
      repeat case_decide; try done; lia.
  - intros e. repeat case_decide; simpl; unfold mret, result_ret; congruence.
Qed.

(** X2. The number of channels is kept: a raster with [d] channels, for any
    [d], becomes a tensor of shape (d, 224, 224) in which channel [k] is
    channel [d - 1 - k] of the resized image. *)
Theorem prep_image_keeps_channels (floatX_dtype : dtype)
    (im : list (list (list A))) (h w d : nat) :
  Np.rect3 h w d im → (0 < h)%nat → (0 < w)%nat →
  ∃ t resized,
    prep_resize resize im = Ok resized
    ∧ prep_image resize astype floatX_dtype im = Ok t
    ∧ Np.rect3 d 224 224 (tensor_data t)
    ∧ ∀ k i j, (k < d)%nat → (i < 224)%nat → (j < 224)%nat →
        Np.item (tensor_data t) k i j
        = astype floatX_dtype
          <$> Np.item resized
                (Z.to_nat (Np.dim0 resized / 2 - 112) + i)
                (Z.to_nat (Np.dim1 resized / 2 - 112) + j) (d - 1 - k).
Proof.
  intros Him Hh Hw.
  destruct (prep_resize_spec resize resize_rect im h w d Him Hh Hw)
    as (Hrs & Hrect & Hmin).
  destruct (prep_image_spec resize astype resize_rect floatX_dtype im h w d
              Him Hh Hw) as (t & Ht & _ & Hsh & Hit).
  set (shape := target_shape (Z.of_nat h) (Z.of_nat w)) in *.
  exists t, (resize im shape true).
  split; [done|]. split; [done|]. split; [done|].
  rewrite (rect3_dim0 _ _ _ _ Hrect), (rect3_dim1 _ _ _ _ Hrect) by lia.
  by rewrite !Z2Nat.id by lia.
Qed.

End PreprocessingEdges.

Lemma rgba_image_rect : Np.rect3 1 1 4 rgba_image.
Proof. repeat constructor. Qed.

Lemma prep_image_keeps_channels_witness :
  Np.rect3 1 1 4 rgba_image
  ∧ ∃ t, prep_image nn_resize (λ _ z, z) float32 rgba_image = Ok t
         ∧ Np.rect3 4 224 224 (tensor_data t).
Proof.
  split; [exact rgba_image_rect|].
  destruct (prep_image_keeps_channels nn_resize (λ _ z, z) (@nn_resize_rect Z)
              float32 rgba_image 1 1 4 rgba_image_rect)
    as (t & rs & _ & Ht & Hsh & _); [lia|lia|].
  exists t. split; [exact Ht|exact Hsh].
Defined.

(** X3. On an array with at least 224 rows and columns the crop is the
    224 x 224 window that starts [r/2 - 112] rows and [c/2 - 112] columns in;
    the window lies inside the array (no slice bound wraps around), the
    margin after it is the margin before it or one more, and on a side of
    length 256 both margins are 16. *)
Theorem prep_crop_centred {A} (im : list (list (list A))) (r c : Z) (d : nat) :
  Np.rect3 (Z.to_nat r) (Z.to_nat c) d im → 224 ≤ r → 224 ≤ c →
  Np.rect3 224 224 d (prep_crop im)
  ∧ (∀ i j k, (i < 224)%nat → (j < 224)%nat →
       Np.item (prep_crop im) i j k
       = Np.item im (Z.to_nat (r / 2 - 112) + i) (Z.to_nat (c / 2 - 112) + j) k)
  ∧ (0 ≤ r / 2 - 112 ∧ r / 2 - 112 ≤ r - (r / 2 + 112)
     ∧ r - (r / 2 + 112) ≤ r / 2 - 112 + 1)
  ∧ (0 ≤ c / 2 - 112 ∧ c / 2 - 112 ≤ c - (c / 2 + 112)
     ∧ c - (c / 2 + 112) ≤ c / 2 - 112 + 1)
  ∧ (r = 256 → r / 2 - 112 = 16 ∧ r - (r / 2 + 112) = 16)
  ∧ (c = 256 → c / 2 - 112 = 16 ∧ c - (c / 2 + 112) = 16).
Proof.
  intros Him Hr Hc.
  destruct (prep_crop_spec im r c d Him Hr Hc) as [Hrect Hitem].
  pose proof (Z.div_mod r 2 ltac:(lia)).
  pose proof (Z.mod_pos_bound r 2 ltac:(lia)).
  pose proof (Z.div_mod c 2 ltac:(lia)).
  pose proof (Z.mod_pos_bound c 2 ltac:(lia)).
  split; [done|]. split; [done|].
  split; [lia|]. split; [lia|].
  split; intros ->; by vm_compute.
Qed.

Lemma prep_crop_centred_witness :
  let im := nn_resize tiny_image (225, 224) true in
  Np.rect3 224 224 3 (prep_crop im)
  ∧ Np.item (prep_crop im) 0 0 0 = Np.item im 0 0 0
  ∧ 225 - (225 / 2 + 112) = 1.
Proof.
  intros im.
  destruct (prep_crop_centred im 225 224 3) as (Hrect & Hitem & _).
  - apply (nn_resize_rect tiny_image (225, 224) true 1 2 3 tiny_image_rect);
      simpl; lia.
  - lia.
  - lia.
  - split; [exact Hrect|]. split; [|reflexivity].
    apply (Hitem 0%nat 0%nat 0%nat); lia.
Defined.

(** X4. The size computation is a projection: an image whose short side is
    already 256 keeps its size, and the size computed for any image is its
    own target, so preprocessing an already resized image does not rescale
    it again. *)
Theorem resize_shape_idempotent (h w : Z) :
  0 < h → 0 < w →
  (Z.min h w = 256 → resize_shape h w = Ok (h, w))
  ∧ ∃ r c, resize_shape h w = Ok (r, c) ∧ resize_shape r c = Ok (r, c).
Proof.
  intros Hh Hw.
  assert (∀ h w, 0 < h → 0 < w → Z.min h w = 256 →
                 resize_shape h w = Ok (h, w)) as Hfix.
  { clear. intros h w Hh Hw Hmin. rewrite resize_shape_target by done.
    unfold target_shape. case_decide.
    - replace h with 256 by lia. by rewrite Z.div_mul.
    - replace w with 256 by lia. by rewrite Z.div_mul. }
  split; [by apply Hfix|].
  pose proof (target_shape_short_side h w Hh Hw) as Hmin.
  pose proof (resize_shape_target h w Hh Hw) as Hrc.
  destruct (target_shape h w) as [r c]. simpl in Hmin.
  exists r, c. split; [done|]. apply Hfix; [lia..|done].
Qed.

Lemma resize_shape_idempotent_witness :
  resize_shape 300 400 = Ok (256, 341) ∧ resize_shape 256 341 = Ok (256, 341).
Proof.
  destruct (resize_shape_idempotent 300 400) as [_ (r & c & Hrc & Hfix)];
    [lia|lia|].
  assert ((r, c) = (256, 341)) as Heq
    by (vm_compute in Hrc; injection Hrc as <- <-; reflexivity).
  injection Heq as -> ->. split; [exact Hrc|exact Hfix].
Defined.

(** X5. Swapping height and width swaps the computed size, error cases
    included: a portrait image is treated like the landscape image it is the
    transpose of. *)
Theorem resize_shape_swap (h w : Z) :
  resize_shape w h = (λ s : Z * Z, (s.2, s.1)) <$> resize_shape h w.
Proof.
  unfold resize_shape, Py.floordiv.
  destruct (decide (h = w)) as [->|Hne].
  - rewrite decide_False by lia.
    destruct (decide (w = 0)) as [|Hw]; [done|]. simpl.
    by rewrite (Z.mul_comm w 256), Z.div_mul.
  - destruct (decide (h < w)).
    + rewrite (decide_False (P := w < h)) by lia. by case_decide.
    + rewrite (decide_True (P := w < h)) by lia. by case_decide.
Qed.

(** ** More on loading *)

Lemma string_app_assoc (a b c : string) : (a +:+ b) +:+ c = a +:+ b +:+ c.
Proof.
  induction a as [|x a IH]; [done|].
  change (String x ((a +:+ b) +:+ c) = String x (a +:+ b +:+ c)).
  by rewrite IH.
Qed.

(** The two tests of [posixpath.join] on strings. *)
Lemma starts_with_sep_spec (s : string) :
  Py.starts_with_sep s = true ↔ ∃ rest, s = "/" +:+ rest.
Proof.
  unfold Py.starts_with_sep, Py.is_sep. destruct s as [|c s].
  - split; [done|]. by intros [rest Hrest].
  - case_decide as Hc.
    + subst c. split; [|done]. intros _. by exists s.
    + split; [done|]. intros [rest Hrest].
      change ("/" +:+ rest) with (String "/" rest) in Hrest. congruence.
Qed.

Lemma ends_with_sep_spec (s : string) :
  Py.ends_with_sep s = true ↔ ∃ dir, s = dir +:+ "/".
Proof.
  split.
  - induction s as [|c s IH]; [done|]. simpl.
    destruct s as [|c' s'].
    + unfold Py.is_sep. case_decide; [|done]. subst c. intros _.
      by exists ""%string.
    + intros [dir Hdir]%IH. exists (String c dir).
      change (String c dir +:+ "/") with (String c (dir +:+ "/")).
      by rewrite <- Hdir.
  - intros [dir ->]. induction dir as [|c dir IH]; [done|].
    change (String c dir +:+ "/") with (String c (dir +:+ "/")).
    simpl. destruct (dir +:+ "/") eqn:Hd; [by destruct dir|done].
Qed.

(** A relative name stays relative with its extension. *)
Lemma relative_jpeg (fn : string) :
  (∀ rest, fn ≠ "/" +:+ rest) → Py.starts_with_sep (fn +:+ ".jpeg") = false.
Proof.
  intros Hrel. destruct (Py.starts_with_sep _) eqn:Hs; [|done].
  apply starts_with_sep_spec in Hs as [rest Hrest].
  destruct fn as [|c fn]; [done|].
  change (String c fn +:+ ".jpeg") with (String c (fn +:+ ".jpeg")) in Hrest.
  change ("/" +:+ rest) with (String "/" rest) in Hrest.
  injection Hrest as -> _. by destruct (Hrel fn).
Qed.

Section LoadingEdges.
Context {A : Type}.
Variable resize : list (list (list A)) → Z * Z → bool → list (list (list A)).
Variable astype : dtype → A → A.
Variable floatX_dtype : dtype.
Variable image_open : string → result (list (list (list A))).
Variable pandas_lookup : label_lookup.

Local Abbreviation prep := (prep_image resize astype floatX_dtype).
Local Abbreviation load_and_prep self :=
  (λ fn, im ← load_image image_open self fn; prep im).
Local Abbreviation load_batch' :=
  (load_batch resize astype floatX_dtype image_open pandas_lookup).

(** What the file-name lookup returns when it returns. *)
Lemma series_getitem_Ok (s : list cell) (indices : list Z) (fns : list cell) :
  series_getitem pandas_lookup s indices = Ok fns →
  fns = default CNaN <$> (at_label s <$> indices).
Proof.
  unfold series_getitem. destruct pandas_lookup; repeat case_decide; congruence.
Qed.

(** It raises nothing but [KeyError], and only over a missing label. *)
Lemma series_getitem_Raise (s : list cell) (indices : list Z) (e : exn) :
  series_getitem pandas_lookup s indices = Raise e →
  e = KeyError ∧ Exists (λ i, at_label s i = None) indices.
Proof.
  unfold series_getitem. destruct pandas_lookup; [| |done].
  - case_decide as Hall; [done|]. intros [= <-]. split; [done|].
    rewrite Forall_fmap in Hall.
    apply not_Forall_Exists in Hall; [|apply _].
    eapply Exists_impl; [exact Hall|].
    intros i Hi. simpl in Hi. destruct (at_label s i); [|done].
    by destruct Hi.
  - case_decide as Hall; [|done]. intros [= <-]. split; [done|].
    destruct Hall as [Hne Hall]. destruct indices as [|i indices]; [done|].
    apply Forall_fmap, Forall_cons in Hall as [Hi _]. by left.
Qed.

Lemma series_getitem_app (s : list cell) (a b : list Z) (fa fb : list cell) :
  series_getitem pandas_lookup s a = Ok fa →
  series_getitem pandas_lookup s b = Ok fb →
  series_getitem pandas_lookup s (a ++ b) = Ok (fa ++ fb).
Proof.
  intros Ha Hb.
  rewrite (series_getitem_Ok _ _ _ Ha), (series_getitem_Ok _ _ _ Hb).
  rewrite <- !fmap_app.
  unfold series_getitem in *. destruct pandas_lookup; [| |done].
  - case_decide as Hfa; [|done]. case_decide as Hfb; [|done].
    rewrite decide_True; [done|]. rewrite fmap_app. by apply Forall_app.
  - case_decide as Hfa; [done|]. case_decide as Hfb; [done|].
    rewrite decide_False; [done|]. intros [Hne Hall].
    rewrite fmap_app in Hall. apply Forall_app in Hall as [Halla Hallb].
    destruct a as [|i a], b as [|j b]; try done;
      match goal with H : ¬ _ |- _ => by apply H end.
Qed.

(** The three steps behind a returned batch. *)
Lemma load_batch_Ok_inv (self : KaggleDR) (indices : list Z)
    (X : list (tensor A)) (labels : list cell) :
  load_batch' self indices = Ok (X, labels) →
  ∃ fns, series_getitem pandas_lookup (image_filenames self) indices = Ok fns
         ∧ mapM (load_and_prep self) fns = Ok X
         ∧ mapM (ndarray_item (y self)) indices = Ok labels.
Proof.
  unfold load_batch, ndarray_getitem.
  destruct (series_getitem _ _ _) as [fns|]; [|done]. simpl.
  destruct (mapM (load_and_prep self) fns) as [X'|] eqn:HX; [|done]. simpl.
  destruct (mapM (ndarray_item (y self)) indices) as [labels'|]; [|done]. simpl.
  case_decide; [|done]. unfold np_array. intros [= <- <-]. by exists fns.
Qed.

Lemma load_batch_Ok_intro (self : KaggleDR) (indices : list Z)
    (fns : list cell) (X : list (tensor A)) (labels : list cell) :
  series_getitem pandas_lookup (image_filenames self) indices = Ok fns →
  mapM (load_and_prep self) fns = Ok X →
  mapM (ndarray_item (y self)) indices = Ok labels →
  load_batch' self indices = Ok (X, labels).
Proof.
  intros Hfns HX Hlabels. unfold load_batch, ndarray_getitem.
  rewrite Hfns. simpl. rewrite HX. simpl. rewrite Hlabels. simpl.
  apply series_getitem_Ok in Hfns. apply mapM_Ok in HX, Hlabels.
  apply Forall2_length in HX, Hlabels. subst fns.
  rewrite !length_fmap in HX. unfold np_array.
  by rewrite decide_True by (split; congruence).
Qed.

(** X6. The empty index sequence gives the empty batch and the empty label
    vector, for every dataset and without opening a file. *)
Theorem load_batch_empty (self : KaggleDR) :
  load_batch' self [] = Ok ([], []).
Proof. unfold load_batch, series_getitem. by destruct pandas_lookup. Qed.

(** X7. On a dataset with one file name and one label per sample, once
    the names of the indices have been looked up and every file has been
    loaded and preprocessed, [load_batch] returns the batch with one label
    per tensor: the lookup of the labels cannot raise [IndexError] and the
    assertion of line 158 cannot fail. *)
Theorem load_batch_returns_after_loading (self : KaggleDR) (indices : list Z)
    (names : list cell) (X : list (tensor A)) :
  consistent self →
  series_getitem pandas_lookup (image_filenames self) indices = Ok names →
  mapM (load_and_prep self) names = Ok X →
  ∃ labels,
    load_batch' self indices = Ok (X, labels)
    ∧ length labels = length X
    ∧ ∀ (k : nat) (i : Z), indices !! k = Some i →
        0 ≤ i < n_samples self ∧ labels !! k = y self !! Z.to_nat i.
Proof.
  intros [Hfn Hy] Hnames HX.
  pose proof (series_getitem_Ok _ _ _ Hnames) as ->.
  assert (Forall (λ i, 0 ≤ i < n_samples self) indices) as Hvalid.
  { pose proof HX as HX'. apply mapM_Ok in HX'.
    rewrite !Forall2_fmap_l in HX'.
    apply Forall_forall. intros i Hi.
    apply list_elem_of_lookup_1 in Hi as [k Hk].
    destruct (Forall2_lookup_l _ _ _ _ _ HX' Hk) as (t & _ & Ht).
    simpl in Ht.
    destruct (at_label (image_filenames self) i) as [c|] eqn:Hc; [|done].
    apply at_label_Some in Hc. lia. }
  destruct (mapM_all_Ok (ndarray_item (y self)) indices) as [labels Hl].
  { eapply Forall_impl; [exact Hvalid|]. intros i Hi. cbv beta in Hi.
    destruct (ndarray_item_valid (y self) i) as (c & _ & Hc); [lia|].
    by exists c. }
  exists labels.
  split; [by eapply load_batch_Ok_intro|].
  pose proof HX as HlenX. pose proof Hl as Hlenl.
  apply mapM_Ok, Forall2_length in HlenX, Hlenl.
  rewrite !length_fmap in HlenX. split; [congruence|].
  intros k i Hk. rewrite Forall_lookup in Hvalid.
  specialize (Hvalid k i Hk). cbv beta in Hvalid. split; [done|].
  apply mapM_Ok in Hl.
  destruct (Forall2_lookup_l _ _ _ _ _ Hl Hk) as (c & Hc & Hitem).
  destruct (ndarray_item_valid (y self) i) as (c' & Hc' & Hitem'); [lia|].
  congruence.
Qed.

(** X8. The files are loaded in the order of the indices, and the first
    one that fails ends the call with its exception: the later files are
    not loaded, the labels are not looked up and no partial batch is
    returned. This is so whenever the lookup of the names passes, which
    needs nothing of the later indices except where pandas rejects missing
    labels: there they must be in range too. *)
Theorem load_batch_first_failure (self : KaggleDR) (before after : list Z)
    (i : Z) (fn : cell) (e : exn) :
  Forall (decodable image_open self) before →
  at_label (image_filenames self) i = Some fn →
  load_image image_open self fn ≫= prep = Raise e →
  (pandas_lookup = LabelStrict →
   Forall (λ j, is_Some (at_label (image_filenames self) j)) after) →
  load_batch' self (before ++ i :: after) = Raise e.
Proof.
  intros Hbefore Hi Hfn Hafter.
  assert (series_getitem pandas_lookup (image_filenames self)
            (before ++ i :: after)
          = Ok (default CNaN
                  <$> (at_label (image_filenames self)
                         <$> before ++ i :: after))) as Hnames.
  { unfold series_getitem. destruct pandas_lookup; [| |done].
    - rewrite decide_True; [done|].
      rewrite fmap_app, fmap_cons, Forall_app, Forall_cons.
      split; [|split].
      + apply Forall_fmap. eapply Forall_impl; [exact Hbefore|].
        intros j (fn' & _ & Hj & _). simpl. by rewrite Hj.
      + by rewrite Hi.
      + apply Forall_fmap. by apply Hafter.
    - rewrite decide_False; [done|]. intros [_ Hall].
      rewrite fmap_app, fmap_cons, Forall_app, Forall_cons in Hall.
      destruct Hall as (_ & Hnone & _). congruence. }
  unfold load_batch. rewrite Hnames. simpl.
  rewrite !fmap_app, !fmap_cons, Hi. simpl.
  rewrite (mapM_first_Raise (load_and_prep self) _ _ fn e); [done| |done].
  apply Forall_fmap, Forall_fmap.
  eapply Forall_impl; [exact Hbefore|].
  intros j (fn' & im & Hj & Him & Hh & Hw). simpl. rewrite Hj. simpl.
  rewrite Him. simpl. by apply prep_image_total.
Qed.

(** X9. Batches concatenate: if two index sequences load, their
    concatenation loads, and gives the two batches and the two label
    vectors one after the other. *)
Theorem load_batch_app (self : KaggleDR) (a b : list Z)
    (Xa Xb : list (tensor A)) (ya yb : list cell) :
  load_batch' self a = Ok (Xa, ya) →
  load_batch' self b = Ok (Xb, yb) →
  load_batch' self (a ++ b) = Ok (Xa ++ Xb, ya ++ yb).
Proof.
  intros (fa & Hfa & HXa & Hya)%load_batch_Ok_inv
         (fb & Hfb & HXb & Hyb)%load_batch_Ok_inv.
  apply load_batch_Ok_intro with (fa ++ fb).
  - by apply series_getitem_app.
  - by apply mapM_app_Ok.
  - by apply mapM_app_Ok.
Qed.

(** X10. The path [load_image] hands to the decoder, whose answer it
    returns: the file name followed by [.jpeg], alone if the name is
    absolute or [path_data] is empty, appended to [path_data] if that ends
    in a slash, and appended to [path_data] and a slash otherwise. A file
    name that is not a string is a [TypeError] whatever the file system
    holds. *)
Theorem load_image_path (self : KaggleDR) :
  (∀ rest, load_image image_open self (CStr ("/" +:+ rest))
           = image_open ("/" +:+ rest +:+ ".jpeg"))
  ∧ (∀ fn, path_data self = ""%string →
           load_image image_open self (CStr fn) = image_open (fn +:+ ".jpeg"))
  ∧ (∀ fn dir, (∀ rest, fn ≠ "/" +:+ rest) →
               path_data self = dir +:+ "/" →
               load_image image_open self (CStr fn)
               = image_open (path_data self +:+ fn +:+ ".jpeg"))
  ∧ (∀ fn, (∀ rest, fn ≠ "/" +:+ rest) →
           path_data self ≠ ""%string →
           (∀ dir, path_data self ≠ dir +:+ "/") →
           load_image image_open self (CStr fn)
           = image_open (path_data self +:+ "/" +:+ fn +:+ ".jpeg"))
  ∧ (∀ c, (∀ fn, c ≠ CStr fn) →
          load_image image_open self c = Raise TypeError).
Proof.
  unfold load_image, image_path, add_str, Py.path_join.
  split; [|split; [|split; [|split]]].
  - intros rest. reflexivity.
  - intros fn ->. simpl. by destruct (Py.starts_with_sep _).
  - intros fn dir Hrel Hdir. simpl.
    rewrite (relative_jpeg fn Hrel).
    rewrite (proj2 (ends_with_sep_spec (path_data self)))
      by (by exists dir).
    destruct (path_data self) eqn:Hpd; [|done].
    by destruct dir.
  - intros fn Hrel Hne Hdir. simpl.
    rewrite (relative_jpeg fn Hrel).
    destruct (Py.ends_with_sep (path_data self)) eqn:Hends.
    + apply ends_with_sep_spec in Hends as [dir Hends]. by destruct (Hdir dir).
    + by destruct (path_data self).
  - intros c Hc. destruct c as [z|fn|]; [done| |done]. by destruct (Hc fn).
Qed.

End LoadingEdges.

Lemma load_batch_returns_after_loading_witness :
  consistent sample_dataset
  ∧ ∃ X labels,
      load_batch nn_resize (λ _ z, z) float32 sample_open LabelStrict
        sample_dataset [1; 0] = Ok (X, labels)
      ∧ length labels = length X.
Proof.
  split; [exact sample_dataset_consistent|].
  destruct (load_batch_spec nn_resize (λ _ z, z) float32 sample_open
              LabelStrict sample_dataset [1; 0] sample_dataset_consistent)
    as (X & labels0 & Hload & _).
  { repeat constructor; vm_compute; done. }
  { exact sample_dataset_decodable. }
  apply load_batch_Ok_inv in Hload as (names & Hnames & HX & _).
  destruct (load_batch_returns_after_loading nn_resize (λ _ z, z) float32
              sample_open LabelStrict sample_dataset [1; 0] names X
              sample_dataset_consistent Hnames HX)
    as (labels & Hret & Hlen & _).
  exists X, labels. split; [exact Hret|exact Hlen].
Defined.

Lemma load_batch_first_failure_witness :
  load_batch nn_resize (λ _ z, z) float32 sample_open LabelReindex
    lossy_dataset [0; 1; 7] = Raise IOError.
Proof.
  apply (load_batch_first_failure nn_resize (λ _ z, z) float32 sample_open
           LabelReindex lossy_dataset [0] [7] 1 (CStr "lost") IOError).
  - repeat constructor. exists (CStr "img1"), tiny_image. by repeat split.
  - reflexivity.
  - reflexivity.
  - intros Hstrict. discriminate Hstrict.
Defined.

Lemma load_image_path_witness :
  load_image sample_open sample_dataset (CStr "img1")
  = sample_open "data/img1.jpeg".
Proof.
  destruct (load_image_path sample_open sample_dataset)
    as (_ & _ & _ & Hjoin & _).
  apply (Hjoin "img1"%string).
  - intros rest Hrest. discriminate Hrest.
  - intros Hempty. discriminate Hempty.
  - intros dir Hdir.
    assert (Py.ends_with_sep "data" = true) as Hends
      by (apply ends_with_sep_spec; by exists dir).
    discriminate Hends.
Defined.

Lemma load_batch_app_witness :
  ∃ X, load_batch nn_resize (λ _ z, z) float32 sample_open LabelStrict
         sample_dataset ([1] ++ [0]) = Ok (X, [CInt 2] ++ [CInt 0]).
Proof.
  destruct (load_batch_spec nn_resize (λ _ z, z) float32 sample_open
              LabelStrict sample_dataset [1] sample_dataset_consistent)
    as (Xa & ya & Ha & _ & Hlena & Hka).
  { repeat constructor; vm_compute; done. }
  { repeat constructor. exists (CStr "img2"), tiny_image. by repeat split. }
  destruct (load_batch_spec nn_resize (λ _ z, z) float32 sample_open
              LabelStrict sample_dataset [0] sample_dataset_consistent)
    as (Xb & yb & Hb & _ & Hlenb & Hkb).
  { repeat constructor; vm_compute; done. }
  { repeat constructor. exists (CStr "img1"), tiny_image. by repeat split. }
  destruct (Hka 0%nat 1 eq_refl) as [(ca & Hya & Hla) _].
  destruct (Hkb 0%nat 0 eq_refl) as [(cb & Hyb & Hlb) _].
  injection Hya as <-. injection Hyb as <-.
  destruct ya as [|a0 [|? ?]]; try discriminate Hlena.
  destruct yb as [|b0 [|? ?]]; try discriminate Hlenb.
  injection Hla as ->. injection Hlb as ->.
  exists (Xa ++ Xb).
  exact (load_batch_app nn_resize (λ _ z, z) float32 sample_open LabelStrict
           sample_dataset [1] [0] Xa Xb [CInt 2] [CInt 0] Ha Hb).
Defined.

(** ** Construct, then load *)

Section ConstructAndLoad.
Context {A : Type}.
Variable resize : list (list (list A)) → Z * Z → bool → list (list (list A)).
Variable astype : dtype → A → A.
Variable floatX_dtype : dtype.
Variable read_csv : string → result (gmap string (list cell)).
Variable image_open : string → result (list (list (list A))).
Variable pandas_lookup : label_lookup.

(** X11. Constructing a dataset from a label table whose two columns have
    the same length and loading a batch of row numbers of that table give
    one tensor per index and, at each position, the [level] cell of the
    indexed row, provided the file [path_data/name.jpeg] of every indexed
    row decodes to a non-empty raster. *)
Theorem init_then_load_batch (path_data filename_targets : string)
    (table : gmap string (list cell)) (names levels : list cell)
    (indices : list Z) :
  read_csv filename_targets = Ok table →
  table !! "image"%string = Some names →
  table !! "level"%string = Some levels →
  length names = length levels →
  Forall (λ i, 0 ≤ i < Z.of_nat (length levels)) indices →
  Forall (λ i, ∃ name im,
            names !! Z.to_nat i = Some (CStr name)
            ∧ image_open (Py.path_join path_data (name +:+ ".jpeg")) = Ok im
            ∧ 0 < Np.dim0 im ∧ 0 < Np.dim1 im) indices →
  ∃ X labels,
    (self ← __init__ read_csv path_data filename_targets;
     load_batch resize astype floatX_dtype image_open pandas_lookup
       self indices) = Ok (X, labels)
    ∧ length X = length indices
    ∧ labels = (λ i, default CNaN (levels !! Z.to_nat i)) <$> indices.
Proof.
  intros Hcsv Hnames Hlevels Hlen Hvalid Hfiles.
  unfold __init__, column. rewrite Hcsv. simpl.
  rewrite Hnames, Hlevels. simpl.
  set (self := {| path_data := path_data; filename_targets := filename_targets;
                  image_filenames := names; y := levels;
                  _n_samples := Z.of_nat (length levels) |}).
  destruct (load_batch_spec resize astype floatX_dtype image_open pandas_lookup
              self indices) as (X & labels & Hload & HlenX & Hlenl & Hk).
  - split; simpl; [by rewrite Hlen|done].
  - done.
  - rewrite Forall_forall in Hvalid, Hfiles. apply Forall_forall.
    intros i Hi. destruct (Hfiles i Hi) as (name & im & Hname & Him & Hh & Hw).
    specialize (Hvalid i Hi). simpl in Hvalid.
    exists (CStr name), im. unfold at_label.
    rewrite decide_True by lia. by repeat split.
  - exists X, labels. split; [done|]. split; [done|].
    apply list_eq. intros k. rewrite list_lookup_fmap.
    destruct (indices !! k) as [i|] eqn:Hik; simpl.
    + destruct (Hk k i Hik) as [(c & Hc & Hl) _]. simpl in Hc.
      by rewrite Hl, Hc.
    + apply lookup_ge_None. apply lookup_ge_None in Hik. lia.
Qed.

End ConstructAndLoad.

Lemma init_then_load_batch_witness :
  ∃ X, (self ← __init__ (csv_of "labels.csv" sample_labels) "data" "labels.csv";
        load_batch nn_resize (λ _ z, z) float32 sample_open LabelStrict
          self [0; 1]) = Ok (X, [CInt 0; CInt 2])
       ∧ length X = 2%nat.
Proof.
  destruct (init_then_load_batch nn_resize (λ _ z, z) float32
              (csv_of "labels.csv" sample_labels) sample_open LabelStrict
              "data" "labels.csv" sample_labels
              [CStr "img1"; CStr "img2"] [CInt 0; CInt 2] [0; 1])
    as (X & labels & Hload & HlenX & Hlabels);
    [reflexivity|reflexivity|reflexivity|reflexivity| | |].
  - repeat constructor; lia.
  - repeat constructor.
    + exists "img1"%string, tiny_image. by repeat split.
    + exists "img2"%string, tiny_image. by repeat split.
  - exists X. rewrite Hlabels in Hload. split; [exact Hload|exact HlenX].
Defined.

(** ** More on iteration *)

(** Consecutive chunks of [m] elements make up a prefix. *)
Lemma chunks_concat {B} (l : list B) (m q : nat) :
  (q * m ≤ length l)%nat →
  concat ((λ k : nat, take m (drop (k * m) l)) <$> seq 0 q) = take (q * m) l
  ∧ Forall (λ c, length c = m)
      ((λ k : nat, take m (drop (k * m) l)) <$> seq 0 q).
Proof.
  induction q as [|q IH]; intros Hq; [done|].
  destruct IH as [IHc IHl]; [lia|].
  rewrite seq_S, fmap_app, concat_app, Forall_app. simpl.
  rewrite IHc, app_nil_r, take_take_drop. split; [f_equal; lia|].
  split; [done|]. constructor; [|done].
  rewrite length_take, length_drop. lia.
Qed.

(** X12. For [batch_size = b > 0] the excerpts of the loop are
    [len(indices) // b] lists of exactly [b] indices each, and one after the
    other they are the first [b * (len(indices) // b)] indices in order:
    they do not overlap, they skip nothing, and the last
    [len(indices) % b] indices are in none of them. *)
Theorem excerpts_partition (indices : list Z) (b : Z) :
  0 < b →
  ∃ ws, excerpts indices b = Ok ws
        ∧ length ws = Z.to_nat (Z.of_nat (length indices) / b)
        ∧ Forall (λ ex, Z.of_nat (length ex) = b) ws
        ∧ concat ws
          = take (Z.to_nat (b * (Z.of_nat (length indices) / b))) indices.
Proof.
  intros Hb. unfold excerpts. rewrite range_full_windows by done. simpl.
  set (n := Z.of_nat (length indices)).
  set (q := Z.to_nat (n / b)). set (m := Z.to_nat b).
  assert (0 ≤ n / b) by (apply Z.div_pos; lia).
  assert (b * (n / b) ≤ n) by (apply Z.mul_div_le; lia).
  assert (q * m ≤ length indices)%nat as Hqm by nia.
  destruct (chunks_concat indices m q Hqm) as [Hconcat Hlen].
  eexists. split; [done|]. rewrite <- list_fmap_compose.
  assert ((λ start_idx : Z, Py.slice indices start_idx (start_idx + b))
            ∘ (λ k : nat, Z.of_nat k * b) <$> seq 0 q
          = (λ k : nat, take m (drop (k * m) indices)) <$> seq 0 q) as ->.
  { apply list_fmap_ext. intros i k Hk. apply lookup_seq in Hk as [-> Hi].
    simpl. rewrite slice_in_range by nia.
    f_equal; [lia|]. f_equal. nia. }
  split; [by rewrite length_fmap, length_seq|]. split.
  - eapply Forall_impl; [exact Hlen|]. intros ex ->. lia.
  - rewrite Hconcat. f_equal. nia.
Qed.

Lemma excerpts_partition_witness :
  excerpts [7; 8; 9; 10; 11] 2 = Ok [[7; 8]; [9; 10]]
  ∧ concat [[7; 8]; [9; 10]] = take 4 [7; 8; 9; 10; 11].
Proof.
  destruct (excerpts_partition [7; 8; 9; 10; 11] 2) as (ws & Hws & _ & _ & Hc);
    [lia|].
  assert (ws = [[7; 8]; [9; 10]]) as ->
    by (vm_compute in Hws; injection Hws as <-; reflexivity).
  split; [exact Hws|exact Hc].
Defined.

Section IterationEdges.
Context {A rng : Type}.
Variable resize : list (list (list A)) → Z * Z → bool → list (list (list A)).
Variable astype : dtype → A → A.
Variable floatX_dtype : dtype.
Variable image_open : string → result (list (list (list A))).
Variable pandas_lookup : label_lookup.
Variable shuffle_with : rng → list Z → rng * list Z.

Local Abbreviation entry_world' := (entry_world shuffle_with).
Local Abbreviation load_batch' :=
  (load_batch resize astype floatX_dtype image_open pandas_lookup).
Local Abbreviation next' :=
  (next resize astype floatX_dtype image_open pandas_lookup shuffle_with).
Local Abbreviation consume' :=
  (consume resize astype floatX_dtype image_open pandas_lookup shuffle_with).

(** A suspended generator run to its end, or to its first failing
    window. *)
Lemma consume_suspended_run (w : world rng) self indices batchsize (b : Z)
    (pre : list Z) (batches : list (list (tensor A) * list cell)) :
  module_globals w !! "batch_size"%string = Some (PyInt b) →
  Forall2 (λ start_idx batch,
             load_batch' self
               (Py.slice (deref w indices) start_idx (start_idx + b))
             = Ok batch) pre batches →
  ∀ fuel, (length pre < fuel)%nat →
    consume' fuel w (Suspended self indices batchsize pre)
    = (w, batches, Exhausted)
    ∧ ∀ start_idx post e,
        load_batch' self
          (Py.slice (deref w indices) start_idx (start_idx + b)) = Raise e →
        consume' fuel w
          (Suspended self indices batchsize (pre ++ start_idx :: post))
        = (w, batches, Failed e).
Proof.
  intros Hb%load_batch_size_bound Hall.
  induction Hall as [|s batch pre batches Hbatch _ IH];
    intros [|fuel] Hfuel; simpl in Hfuel; try lia.
  - split; [done|]. intros s post e He.
    rewrite consume_S. unfold next, loop_step. simpl.
    rewrite Hb. cbn [mbind result_bind]. by rewrite He.
  - destruct (IH fuel ltac:(lia)) as [IHend IHfail].
    split; [|intros s' post e He]; rewrite consume_S; unfold next, loop_step;
      simpl; rewrite Hb; cbn [mbind result_bind]; rewrite Hbatch.
    + by rewrite IHend.
    + by rewrite (IHfail s' post e He).
Qed.

(** The first [next()] with [batch_size] bound to a positive int: the
    generator continues as one suspended before the first window. *)
Lemma consume_created_bound (fuel : nat) (w : world rng) self indices
    batchsize shuffle (b : Z) :
  module_globals w !! "batch_size"%string = Some (PyInt b) → 0 < b →
  let w1 := entry_world' w indices shuffle in
  consume' (S fuel) w (iterate_minibatches self indices batchsize shuffle)
  = consume' (S fuel) w1
      (Suspended self indices batchsize
         ((λ k : nat, Z.of_nat k * b)
            <$> seq 0 (Z.to_nat (Z.of_nat (length (deref w1 indices)) / b)))).
Proof.
  intros Hb Hpos w1. unfold iterate_minibatches. rewrite !consume_S.
  unfold next. fold w1.
  rewrite (load_batch_size_bound w1 b)
    by (unfold w1; by rewrite entry_world_globals).
  cbn [mbind result_bind]. by rewrite range_full_windows.
Qed.

Lemma excerpts_starts (indices : list Z) (b : Z) (ws : list (list Z)) :
  0 < b → excerpts indices b = Ok ws →
  ws = (λ start_idx : Z, Py.slice indices start_idx (start_idx + b))
       <$> ((λ k : nat, Z.of_nat k * b)
              <$> seq 0 (Z.to_nat (Z.of_nat (length indices) / b))).
Proof.
  intros Hb. unfold excerpts. rewrite range_full_windows by done. simpl.
  congruence.
Qed.

(** X13. What the generator does in a module where the global
    [batch_size] is bound to [b > 0]: after the shuffle, if one is asked
    for, it yields the [load_batch] of each excerpt of [b] indices in turn
    and then ends normally; the argument [batchsize] plays no part. *)
Theorem iterate_with_global_batch_size (fuel : nat) (w : world rng) self
    (indices : nat) (batchsize : Z) (shuffle : bool) (b : Z)
    (ws : list (list Z)) (batches : list (list (tensor A) * list cell)) :
  module_globals w !! "batch_size"%string = Some (PyInt b) → 0 < b →
  excerpts (deref (entry_world' w indices shuffle) indices) b = Ok ws →
  Forall2 (λ ex batch, load_batch' self ex = Ok batch) ws batches →
  (length ws < fuel)%nat →
  consume' fuel w (iterate_minibatches self indices batchsize shuffle)
  = (entry_world' w indices shuffle, batches, Exhausted).
Proof.
  intros Hb Hpos Hws Hall Hfuel.
  destruct fuel as [|fuel]; [lia|].
  rewrite (consume_created_bound fuel w self indices batchsize shuffle b Hb Hpos).
  cbv zeta. apply excerpts_starts in Hws; [|done]. subst ws.
  rewrite Forall2_fmap_l in Hall. rewrite length_fmap in Hfuel.
  refine (proj1 (consume_suspended_run _ self indices batchsize b _ batches
                   _ Hall (S fuel) Hfuel)).
  by rewrite entry_world_globals.
Qed.

(** X14. In such a module a window whose [load_batch] raises ends the
    iteration: the consumer has received the batches of the windows before
    it, in order, and then gets that exception; no later window is
    loaded. *)
Theorem iterate_stops_at_first_failure (fuel : nat) (w : world rng) self
    (indices : nat) (batchsize : Z) (shuffle : bool) (b : Z)
    (before after : list (list Z)) (ex : list Z) (e : exn)
    (batches : list (list (tensor A) * list cell)) :
  module_globals w !! "batch_size"%string = Some (PyInt b) → 0 < b →
  excerpts (deref (entry_world' w indices shuffle) indices) b
  = Ok (before ++ ex :: after) →
  Forall2 (λ ex batch, load_batch' self ex = Ok batch) before batches →
  load_batch' self ex = Raise e →
  (length before < fuel)%nat →
  consume' fuel w (iterate_minibatches self indices batchsize shuffle)
  = (entry_world' w indices shuffle, batches, Failed e).
Proof.
  intros Hb Hpos Hws Hall He Hfuel.
  destruct fuel as [|fuel]; [lia|].
  rewrite (consume_created_bound fuel w self indices batchsize shuffle b Hb Hpos).
  cbv zeta. apply excerpts_starts in Hws; [|done].
  symmetry in Hws.
  apply fmap_app_inv in Hws as (pre & rest & -> & Hrest & ->).
  destruct rest as [|s post]; [done|]. simpl in Hrest.
  injection Hrest as -> _.
  rewrite Forall2_fmap_l in Hall. rewrite length_fmap in Hfuel.
  refine (proj2 (consume_suspended_run _ self indices batchsize b _ batches
                   _ Hall (S fuel) Hfuel) s post e He).
  by rewrite entry_world_globals.
Qed.

(** X15. The other bindings of the global [batch_size]: an object that is
    not an int makes the first [next()] raise [TypeError], 0 makes it raise
    the [ValueError] of [range], and with a negative int the generator ends
    at once without a batch. *)
Theorem iterate_with_unusable_batch_size (fuel : nat) (w : world rng) self
    (indices : nat) (batchsize : Z) (shuffle : bool) (v : pyobj) :
  module_globals w !! "batch_size"%string = Some v →
  match v with PyInt b => b ≤ 0 | _ => True end →
  consume' (S fuel) w (iterate_minibatches self indices batchsize shuffle)
  = (entry_world' w indices shuffle, [],
     match v with
     | PyInt b => if decide (b = 0) then Failed ValueError else Exhausted
     | _ => Failed TypeError
     end).
Proof.
  intros Hv Hbad. unfold iterate_minibatches. rewrite consume_S. unfold next.
  unfold load_batch_size, load_global. rewrite entry_world_globals, Hv.
  destruct v as [b| | |]; try done. cbn [mbind result_bind as_int].
  unfold Py.range. case_decide as Hb0; [done|].
  unfold Py.range_len. rewrite decide_False by lia.
  set (n := Z.of_nat (length _)).
  assert ((0 - (n - b + 1) - b - 1) / - b < 0)
    by (apply Z.div_lt_upper_bound; lia).
  by replace (Z.to_nat (Z.max 0 _)) with 0%nat by lia.
Qed.

(** Frames that agree up to [batchsize] behave alike. *)
Lemma next_same_frame (w : world rng) (g1 g2 : generator) :
  same_frame g1 g2 →
  (next' w g1).1.1 = (next' w g2).1.1
  ∧ (next' w g1).2 = (next' w g2).2
  ∧ same_frame (next' w g1).1.2 (next' w g2).1.2.
Proof.
  assert (∀ (w : world rng) self indices b1 b2 pending,
            let r1 := loop_step resize astype floatX_dtype image_open
                        pandas_lookup w self indices b1 pending in
            let r2 := loop_step resize astype floatX_dtype image_open
                        pandas_lookup w self indices b2 pending in
            r1.1.1 = r2.1.1 ∧ r1.2 = r2.2 ∧ same_frame r1.1.2 r2.1.2) as Hloop.
  { clear. intros w self indices b1 b2 [|s pending]; [done|].
    unfold loop_step. by destruct (_ ≫= _). }
  destruct g1 as [s1 i1 b1 sh1|s1 i1 b1 p1|], g2 as [s2 i2 b2 sh2|s2 i2 b2 p2|];
    try done; simpl.
  - intros (<- & <- & <-). destruct (_ ≫= _); [apply Hloop|done].
  - intros (<- & <- & <-). apply Hloop.
Qed.

Lemma consume_same_frame (fuel : nat) (w : world rng) (g1 g2 : generator) :
  same_frame g1 g2 → consume' fuel w g1 = consume' fuel w g2.
Proof.
  revert w g1 g2. induction fuel as [|fuel IH]; intros w g1 g2 Hg; [done|].
  rewrite !consume_S.
  destruct (next_same_frame w g1 g2 Hg) as (Hw & Hs & Hg').
  destruct (next' w g1) as [[w1 g1'] s1], (next' w g2) as [[w2 g2'] s2].
  simpl in *. subst w2 s2. destruct s1 as [batch| |]; [|done..].
  by rewrite (IH w1 g1' g2' Hg').
Qed.

(** X16. The argument [batchsize] is never read: two calls that differ
    only in it give the consumer the same batches, the same ending and the
    same world, in every module state. *)
Theorem batchsize_is_ignored (fuel : nat) (w : world rng) self (indices : nat)
    (batchsize1 batchsize2 : Z) (shuffle : bool) :
  consume' fuel w (iterate_minibatches self indices batchsize1 shuffle)
  = consume' fuel w (iterate_minibatches self indices batchsize2 shuffle).
Proof. by apply consume_same_frame. Qed.

End IterationEdges.

Lemma iterate_with_global_batch_size_witness :
  let w := World {[ 0%nat := [0; 1; 0] ]} 0%nat
             (<["batch_size"%string := PyInt 2]> datasets_globals) in
  ∃ batch,
    consume nn_resize (λ _ z, z) float32 sample_open LabelStrict rev_shuffle 2 w
      (iterate_minibatches sample_dataset 0%nat 5 true)
    = (entry_world rev_shuffle w 0%nat true, [batch], Exhausted)
    ∧ load_batch nn_resize (λ _ z, z) float32 sample_open LabelStrict
        sample_dataset [0; 1] = Ok batch.
Proof.
  intros w.
  destruct (load_batch_spec nn_resize (λ _ z, z) float32 sample_open
              LabelStrict sample_dataset [0; 1] sample_dataset_consistent)
    as (X & labels & Hload & _).
  { repeat constructor; vm_compute; done. }
  { repeat constructor.
    - exists (CStr "img1"), tiny_image. by repeat split.
    - exists (CStr "img2"), tiny_image. by repeat split. }
  exists (X, labels). split; [|exact Hload].
  apply (iterate_with_global_batch_size nn_resize (λ _ z, z) float32
           sample_open LabelStrict rev_shuffle 2 w sample_dataset 0%nat 5
           true 2 [[0; 1]] [(X, labels)]).
  - reflexivity.
  - lia.
  - reflexivity.
  - constructor; [exact Hload|constructor].
  - simpl. lia.
Defined.

Lemma lossy_dataset_consistent : consistent lossy_dataset.
Proof. by split. Qed.

Lemma iterate_stops_at_first_failure_witness :
  let w := World {[ 0%nat := [0; 1; 2] ]} 0%nat
             (<["batch_size"%string := PyInt 1]> datasets_globals) in
  ∃ batch,
    consume nn_resize (λ _ z, z) float32 sample_open LabelStrict rev_shuffle 5 w
      (iterate_minibatches lossy_dataset 0%nat 1 false)
    = (w, [batch], Failed IOError).
Proof.
  intros w.
  destruct (load_batch_spec nn_resize (λ _ z, z) float32 sample_open
              LabelStrict lossy_dataset [0] lossy_dataset_consistent)
    as (X & labels & Hload & _).
  { repeat constructor; vm_compute; done. }
  { repeat constructor. exists (CStr "img1"), tiny_image. by repeat split. }
  exists (X, labels).
  apply (iterate_stops_at_first_failure nn_resize (λ _ z, z) float32
           sample_open LabelStrict rev_shuffle 5 w lossy_dataset 0%nat 1
           false 1 [[0]] [[2]] [1] IOError [(X, labels)]).
  - reflexivity.
  - lia.
  - reflexivity.
  - constructor; [exact Hload|constructor].
  - reflexivity.
  - simpl. lia.
Defined.

Lemma iterate_with_unusable_batch_size_witness :
  let w := World {[ 0%nat := [0; 1] ]} 0%nat
             (<["batch_size"%string := PyInt 0]> datasets_globals) in
  consume nn_resize (λ _ z, z) float32 sample_open LabelStrict rev_shuffle 1 w
    (iterate_minibatches sample_dataset 0%nat 2 false)
  = (w, [], Failed ValueError).
Proof.
  intros w.
  apply (iterate_with_unusable_batch_size nn_resize (λ _ z, z) float32
           sample_open LabelStrict rev_shuffle 0 w sample_dataset 0%nat 2
           false (PyInt 0)).
  - reflexivity.
  - simpl. lia.
Defined.

(** ** The constructed object *)

(** X17. A constructed dataset holds the two columns of the label table
    as they were read, in row order; its [n_samples] is the number of
    labels; and it has one file name per sample exactly when the two
    columns have the same length. *)
Theorem init_invariant (read_csv : string → result (gmap string (list cell)))
    (path_data' filename_targets' : string) (self : KaggleDR) :
  __init__ read_csv path_data' filename_targets' = Ok self →
  path_data self = path_data'
  ∧ filename_targets self = filename_targets'
  ∧ n_samples self = Z.of_nat (length (y self))
  ∧ (∃ table, read_csv filename_targets' = Ok table
              ∧ table !! "image"%string = Some (image_filenames self)
              ∧ table !! "level"%string = Some (y self))
  ∧ (consistent self ↔ length (image_filenames self) = length (y self)).
Proof.
  unfold __init__, column.
  destruct (read_csv filename_targets') as [table|] eqn:Hcsv; [|done]. simpl.
  destruct (table !! "image"%string) as [names|] eqn:Hnames; [|done]. simpl.
  destruct (table !! "level"%string) as [levels|] eqn:Hlevels; [|done]. simpl.
  intros [= <-]. simpl. split; [done|]. split; [done|]. split; [done|].
  split; [by exists table|].
  unfold consistent, n_samples. simpl. split; [intros [? _]; lia|].
  intros ->. by split.
Qed.

Lemma init_invariant_witness :
  ∃ self, __init__ (csv_of "labels.csv" sample_labels) "data" "labels.csv"
          = Ok self
          ∧ n_samples self = 2
          ∧ consistent self.
Proof.
  exists sample_dataset.
  destruct (init_invariant (csv_of "labels.csv" sample_labels) "data"
              "labels.csv" sample_dataset eq_refl) as (_ & _ & Hn & _ & Hc).
  split; [reflexivity|]. split; [exact Hn|]. apply Hc. reflexivity.
Defined.
